(** * XSLT batch transformer: matcher, per-file pipeline and tree walker

    A shallow embedding of [XSLTTransform.py] and of its variant
    [xsltTransformerandScraper.py].

    - Python [str] values are [string]s.  For file names the character-level
      functions ([upper], [lower], [strip], the [\d] class) are given on
      ASCII; a byte above 127 is an opaque character that is neither a digit,
      nor a blank, nor a cased letter.
    - A [pathlib.Path] is the list of its [parts], in the POSIX flavour;
      [stem] drops the last suffix as pathlib does up to Python 3.13.
    - The captured output of a child process is a [bytes] value, a string
      of raw bytes; [decode] raises [UnicodeDecodeError] when they are not
      well-formed UTF-8, with the message of the codec; a decoded text is
      the string of its UTF-8 bytes, and [strip_text] trims the white space
      of Unicode from it.
    - [logging.basicConfig] opens the log file when the module is loaded,
      which is a file system call of the run and can fail.  [logging.error]
      appends a record to that file; [error_log] holds the messages of the
      records appended, in order.  The handler swallows its own I/O errors,
      so logging a record never raises.
    - [print] writes to a console that accepts every character; [console]
      holds the lines printed.
    - The two process-wide trackers ([validation_errors], [unmatched_files]),
      the error log, the console, the external commands issued so far and
      the files written form an explicit [state]; exceptions are explicit
      results, and the environment ([world]) answers every command. *)

From Stdlib Require Import ZArith Ascii String DecimalString.
From Stdlib Require Import List Bool Arith Lia.
Import ListNotations.

Local Open Scope string_scope.

(** ** Python strings *)

Module Py.

Definition code (c : ascii) : nat := nat_of_ascii c.

Definition between (lo hi : nat) (c : ascii) : bool :=
  (lo <=? code c)%nat && (code c <=? hi)%nat.

(** The regular-expression class [\d]. *)
Definition isdigit (c : ascii) : bool := between 48 57 c.

(** [str.isspace] per character: TAB..CR, FS..US and the space. *)
Definition isspace (c : ascii) : bool :=
  between 9 13 c || between 28 32 c.

Definition upper_char (c : ascii) : ascii :=
  if between 97 122 c then ascii_of_nat (code c - 32) else c.

Definition lower_char (c : ascii) : ascii :=
  if between 65 90 c then ascii_of_nat (code c + 32) else c.

Fixpoint map_chars (f : ascii -> ascii) (s : string) : string :=
  match s with
  | EmptyString => EmptyString
  | String c s' => String (f c) (map_chars f s')
  end.

(** [s.upper()] and [s.lower()]. *)
Definition upper : string -> string := map_chars upper_char.
Definition lower : string -> string := map_chars lower_char.

(** [re.sub(r'\d+', '', s)]: every maximal run of digits is replaced by the
    empty string, which leaves exactly the characters that are not digits. *)
Fixpoint re_sub_digits (s : string) : string :=
  match s with
  | EmptyString => EmptyString
  | String c s' =>
      if isdigit c then re_sub_digits s' else String c (re_sub_digits s')
  end.

Fixpoint lstrip (s : string) : string :=
  match s with
  | EmptyString => EmptyString
  | String c s' => if isspace c then lstrip s' else s
  end.

Definition is_empty (s : string) : bool :=
  match s with EmptyString => true | String _ _ => false end.

Fixpoint rstrip (s : string) : string :=
  match s with
  | EmptyString => EmptyString
  | String c s' =>
      let r := rstrip s' in
      if isspace c && is_empty r then EmptyString else String c r
  end.

(** [s.strip()]. *)
Definition strip (s : string) : string := rstrip (lstrip s).

(** The white space of Unicode above U+007F in its UTF-8 form: U+0085 and
    U+00A0 take two bytes; U+1680, U+2000 to U+200A, U+2028, U+2029, U+202F,
    U+205F and U+3000 take three. *)
Definition space2 (c0 c1 : ascii) : bool :=
  (code c0 =? 194)%nat && ((code c1 =? 133)%nat || (code c1 =? 160)%nat).

Definition space3 (c0 c1 c2 : ascii) : bool :=
  ((code c0 =? 225)%nat && (code c1 =? 154)%nat && (code c2 =? 128)%nat)
  || ((code c0 =? 226)%nat && (code c1 =? 128)%nat
      && (between 128 138 c2 || between 168 169 c2 || (code c2 =? 175)%nat))
  || ((code c0 =? 226)%nat && (code c1 =? 129)%nat && (code c2 =? 159)%nat)
  || ((code c0 =? 227)%nat && (code c1 =? 128)%nat && (code c2 =? 128)%nat).

Fixpoint lstrip_text (s : string) : string :=
  match s with
  | EmptyString => s
  | String c0 t0 =>
      if isspace c0 then lstrip_text t0
      else
        match t0 with
        | EmptyString => s
        | String c1 t1 =>
            if space2 c0 c1 then lstrip_text t1
            else
              match t1 with
              | EmptyString => s
              | String c2 t2 => if space3 c0 c1 c2 then lstrip_text t2 else s
              end
        end
  end.

Fixpoint rev_append (s acc : string) : string :=
  match s with
  | EmptyString => acc
  | String c s' => rev_append s' (String c acc)
  end.

Definition reversed (s : string) : string := rev_append s EmptyString.

(** [lstrip_text] from the other end: [r] is a text with its bytes in
    reverse order. *)
Fixpoint lstrip_reversed (r : string) : string :=
  match r with
  | EmptyString => r
  | String c2 t0 =>
      if isspace c2 then lstrip_reversed t0
      else
        match t0 with
        | EmptyString => r
        | String c1 t1 =>
            if space2 c1 c2 then lstrip_reversed t1
            else
              match t1 with
              | EmptyString => r
              | String c0 t2 => if space3 c0 c1 c2 then lstrip_reversed t2 else r
              end
        end
  end.

Definition rstrip_text (s : string) : string :=
  reversed (lstrip_reversed (reversed s)).

(** [s.strip()] on a decoded text, which is held as its UTF-8 bytes: the
    white space of Unicode is trimmed at both ends. *)
Definition strip_text (s : string) : string := rstrip_text (lstrip_text s).

(** [s.startswith(p)]. *)
Fixpoint startswith (s p : string) : bool :=
  match p, s with
  | EmptyString, _ => true
  | String _ _, EmptyString => false
  | String a p', String b s' => Ascii.eqb a b && startswith s' p'
  end.

(** [sub in s] for strings: [sub] occurs in [s] at some offset. *)
Fixpoint str_in (sub s : string) : bool :=
  startswith s sub ||
  match s with
  | EmptyString => false
  | String _ s' => str_in sub s'
  end.

(** [s.endswith(suffix)]. *)
Definition endswith (s suffix : string) : bool :=
  let n := String.length s in
  let m := String.length suffix in
  (m <=? n)%nat && String.eqb (String.substring (n - m) m s) suffix.

(** [s.rfind('.')], [None] standing for [-1]. *)
Fixpoint rfind_dot (s : string) : option nat :=
  match s with
  | EmptyString => None
  | String c s' =>
      match rfind_dot s' with
      | Some i => Some (S i)
      | None => if Ascii.eqb c "."%char then Some 0%nat else None
      end
  end.

(** Every character of [s] satisfies [p]. *)
Fixpoint all_chars (p : ascii -> bool) (s : string) : bool :=
  match s with
  | EmptyString => true
  | String c s' => p c && all_chars p s'
  end.

(** Truth value of an [Optional[str]]: [None] and [''] are false. *)
Definition truthy (o : option string) : bool :=
  match o with
  | None => false
  | Some s => negb (is_empty s)
  end.

(** [a or b] on strings. *)
Definition str_or (a b : string) : string := if is_empty a then b else a.

End Py.

(** ** pathlib *)

Module Pathlib.

(** A path is the tuple [Path.parts]; for an absolute path the first part is
    the anchor. *)
Definition Path : Type := list string.

Fixpoint split_sep (s : string) : list string :=
  match s with
  | EmptyString => [EmptyString]
  | String c s' =>
      if Ascii.eqb c "/"%char then EmptyString :: split_sep s'
      else match split_sep s' with
           | [] => [String c EmptyString]
           | h :: t => String c h :: t
           end
  end.

(** [Path(s).name] for a relative name: the last component, empty and ["."]
    components dropped. *)
Definition name_of (s : string) : string :=
  List.last
    (List.filter (fun c => negb (Py.is_empty c || String.eqb c ".")) (split_sep s))
    EmptyString.

(** [PurePath.stem] of a final component: the name without its last suffix;
    a leading dot or a trailing dot starts no suffix. *)
Definition stem_of_name (name : string) : string :=
  match Py.rfind_dot name with
  | Some i =>
      if (0 <? i)%nat && (i <? String.length name - 1)%nat
      then String.substring 0 i name
      else name
  | None => name
  end.

(** [Path(s).stem]. *)
Definition stem (s : string) : string := stem_of_name (name_of s).

(** [str(p)] in the POSIX flavour; the anchor is ["/"] or ["//"]. *)
Definition str (p : Path) : string :=
  match p with
  | [] => "."
  | a :: rest =>
      if String.eqb a "/" || String.eqb a "//" then a ++ String.concat "/" rest
      else String.concat "/" p
  end.

(** The parts a string contributes to a path: its pieces between
    separators, the empty ones and ["."] dropped. *)
Definition components (s : string) : list string :=
  List.filter (fun c => negb (Py.is_empty c || String.eqb c ".")) (split_sep s).

(** The root of a string that starts with a separator: exactly two leading
    separators are kept, any other number is one root. *)
Definition root_of (s : string) : option string :=
  if Py.startswith s "///" then Some "/"
  else if Py.startswith s "//" then Some "//"
  else if Py.startswith s "/" then Some "/"
  else None.

(** [p / name] for a string [name]: an absolute [name] replaces [p],
    otherwise the parts of [name] are added to those of [p]. *)
Definition joinpath (p : Path) (name : string) : Path :=
  match root_of name with
  | Some root => root :: components name
  | None => (p ++ components name)%list
  end.

(** A name that is one path component: not empty, not ["."], without a
    separator. *)
Definition plain_name (name : string) : bool :=
  negb (Py.is_empty name || String.eqb name ".")
  && Py.all_chars (fun c => negb (Ascii.eqb c "/"%char)) name.

(** [p.name]: the last part, empty for the anchor alone. *)
Definition name (p : Path) : string :=
  match p with
  | [a] => if String.eqb a "/" || String.eqb a "//" then EmptyString else a
  | _ => List.last p EmptyString
  end.

(** [p.parent]; the anchor is its own parent. *)
Definition parent (p : Path) : Path :=
  match p with
  | [a] => if String.eqb a "/" || String.eqb a "//" then p else []
  | _ => removelast p
  end.

End Pathlib.

(** ** The interpreter-level runtime: exceptions, state, subprocesses *)

Module Runtime.

Import Py Pathlib.

(** A [bytes] object, as the string of its bytes. *)
Definition bytes : Type := string.

(** The exceptions the two scripts can meet; all are subclasses of
    [Exception]. *)
Inductive exn : Type :=
| CalledProcessError (returncode : Z) (stdout stderr : bytes)
| TimeoutExpired (timeout : nat)
| OSError (msg : string)
| ValueError (msg : string)
| UnicodeDecodeError (object : bytes) (start stop : nat) (reason : string).

Definition is_CalledProcessError (e : exn) : bool :=
  match e with CalledProcessError _ _ _ => true | _ => false end.

(** The digits of [n] in base ten, and the two lower-case hexadecimal digits
    of a byte ([%02x]). *)
Definition decimal (n : nat) : string := NilEmpty.string_of_uint (Nat.to_uint n).

Definition hex_digit (n : nat) : ascii :=
  if (n <? 10)%nat then ascii_of_nat (48 + n) else ascii_of_nat (87 + n).

Definition hex_byte (c : ascii) : string :=
  String (hex_digit (code c / 16)) (String (hex_digit (code c mod 16)) EmptyString).

(** [str(e)].  The scripts only render exceptions caught by
    [except Exception], which are [OSError]s and [UnicodeDecodeError]s
    there; the two subprocess exceptions are rendered without their command
    line.  A decoding error names the byte when it covers one byte, and the
    range of offsets otherwise. *)
Definition exn_str (e : exn) : string :=
  match e with
  | CalledProcessError _ _ _ => "Command returned non-zero exit status."
  | TimeoutExpired _ => "Command timed out."
  | OSError msg => msg
  | ValueError msg => msg
  | UnicodeDecodeError object start stop reason =>
      if (stop =? start + 1)%nat then
        "'utf-8' codec can't decode byte 0x"
        ++ match String.get start object with
           | Some c => hex_byte c
           | None => EmptyString
           end
        ++ " in position " ++ decimal start ++ ": " ++ reason
      else
        "'utf-8' codec can't decode bytes in position " ++ decimal start ++ "-"
        ++ decimal (stop - 1) ++ ": " ++ reason
  end.

Definition continuation (c : ascii) : bool := between 128 191 c.

(** The range of the second byte of a three-byte and of a four-byte
    sequence, which depends on the first byte. *)
Definition second_of_three (c0 c1 : ascii) : bool :=
  if (code c0 =? 224)%nat then between 160 191 c1
  else if (code c0 =? 237)%nat then between 128 159 c1
  else continuation c1.

Definition second_of_four (c0 c1 : ascii) : bool :=
  if (code c0 =? 240)%nat then between 144 191 c1
  else if (code c0 =? 244)%nat then between 128 143 c1
  else continuation c1.

(** The three ways a sequence fails to be UTF-8, each with the offsets
    [(start, stop)] of the bytes at fault and the reason the codec gives:
    a byte that starts no sequence, a sequence whose byte number [n] is not
    a continuation byte, and a sequence cut short by the end of [rest]. *)
Definition invalid_start (pos : nat) : option (nat * nat * string) :=
  Some (pos, pos + 1, "invalid start byte")%nat.

Definition invalid_continuation (pos n : nat) : option (nat * nat * string) :=
  Some (pos, pos + n, "invalid continuation byte")%nat.

Definition unexpected_end (pos : nat) (rest : bytes) : option (nat * nat * string) :=
  Some (pos, pos + String.length rest, "unexpected end of data")%nat.

(** The first sequence of [b] that is not well-formed UTF-8, with offsets
    counted from [pos]; [None] when all of [b] is well formed. *)
Fixpoint utf8_error (pos : nat) (b : bytes) : option (nat * nat * string) :=
  match b with
  | EmptyString => None
  | String c0 t0 =>
      if between 0 127 c0 then utf8_error (S pos) t0
      else if between 194 223 c0 then
        match t0 with
        | EmptyString => unexpected_end pos b
        | String c1 t1 =>
            if continuation c1 then utf8_error (pos + 2) t1
            else invalid_continuation pos 1
        end
      else if between 224 239 c0 then
        match t0 with
        | EmptyString => unexpected_end pos b
        | String c1 t1 =>
            if negb (second_of_three c0 c1) then invalid_continuation pos 1
            else
              match t1 with
              | EmptyString => unexpected_end pos b
              | String c2 t2 =>
                  if continuation c2 then utf8_error (pos + 3) t2
                  else invalid_continuation pos 2
              end
        end
      else if between 240 244 c0 then
        match t0 with
        | EmptyString => unexpected_end pos b
        | String c1 t1 =>
            if negb (second_of_four c0 c1) then invalid_continuation pos 1
            else
              match t1 with
              | EmptyString => unexpected_end pos b
              | String c2 t2 =>
                  if negb (continuation c2) then invalid_continuation pos 2
                  else
                    match t2 with
                    | EmptyString => unexpected_end pos b
                    | String c3 t3 =>
                        if continuation c3 then utf8_error (pos + 4) t3
                        else invalid_continuation pos 3
                    end
              end
        end
      else invalid_start pos
  end.

(** The external commands, by the paths their argument vector is built
    from. *)
Inductive command : Type :=
| Saxon (jar : string) (source stylesheet output : Path)
| XmllintFormat (file out : Path)
| Mv (source dest : Path)
| XmllintSchema (schema file : Path).

Definition argv (c : command) : list string :=
  match c with
  | Saxon jar s x o =>
      ["java"; "-jar"; jar; "-s:" ++ str s; "-xsl:" ++ str x; "-o:" ++ str o]
  | XmllintFormat f t => ["xmllint"; "--format"; str f; "-o"; str t]
  | Mv s d => ["mv"; str s; str d]
  | XmllintSchema sch f => ["xmllint"; "--noout"; "--schema"; str sch; str f]
  end.

(** In-process file system operations. [PrettyPrint] is the read, parse and
    rewrite of [pretty_print_xml]. *)
Inductive fsop : Type :=
| Mkdir (p : Path)
| Chmod (p : Path) (mode : N)
| WriteText (p : Path) (content : string)
| PrettyPrint (p : Path)
| OpenLog (p : Path).

Inductive action : Type :=
| Spawn (c : command)
| Sys (op : fsop).

(** What a child process does: it cannot be started, or it exits after
    [elapsed] seconds with a return code and its two captured streams. *)
Inductive process : Type :=
| NotStarted (msg : string)
| Exited (elapsed : nat) (returncode : Z) (stdout stderr : bytes).

(** The environment the script runs in.  Each answer may depend on
    everything the script did before. *)
Record world : Type := {
  spawn : list action -> command -> process;
  syscall : list action -> fsop -> option string;
  os_listdir : Path -> list string + string;
  os_walk : Path -> list (Path * list string * list string)
}.

Record state : Type := {
  validation_errors : list (string * string);
  unmatched_files : list string;
  error_log : list string;
  console : list string;
  history : list action;
  written : list (Path * string)
}.

Definition initial_state : state :=
  {| validation_errors := []; unmatched_files := []; error_log := [];
     console := []; history := []; written := [] |}.

Inductive result (A : Type) : Type :=
| Ok (a : A)
| Raise (e : exn).
Arguments Ok {A} a.
Arguments Raise {A} e.

Definition M (A : Type) : Type := state -> state * result A.

Definition ret {A} (a : A) : M A := fun st => (st, Ok a).
Definition raise {A} (e : exn) : M A := fun st => (st, Raise e).

Definition bind {A B} (c : M A) (k : A -> M B) : M B :=
  fun st =>
    match c st with
    | (st', Ok a) => k a st'
    | (st', Raise e) => (st', Raise e)
    end.

(** [try: c except ...: handler]; [handler e = None] when no [except] clause
    matches [e]. *)
Definition try_except {A} (c : M A) (handler : exn -> option (M A)) : M A :=
  fun st =>
    match c st with
    | (st', Ok a) => (st', Ok a)
    | (st', Raise e) =>
        match handler e with
        | Some h => h st'
        | None => (st', Raise e)
        end
    end.

Definition modify (f : state -> state) : M unit := fun st => (f st, Ok tt).
Definition gets {A} (f : state -> A) : M A := fun st => (st, Ok (f st)).

Declare Scope py_scope.
Delimit Scope py_scope with py.
Notation "x <- c ;; k" := (bind c (fun x => k))
  (at level 61, c at next level, right associativity) : py_scope.
Notation "c ;; k" := (bind c (fun _ => k))
  (at level 61, right associativity) : py_scope.
Local Open Scope py_scope.

(** [for x in xs: body x]. *)
Fixpoint for_each {A} (xs : list A) (body : A -> M unit) : M unit :=
  match xs with
  | [] => ret tt
  | x :: rest => body x ;; for_each rest body
  end.

Definition print (msg : string) : M unit :=
  modify (fun st =>
    {| validation_errors := validation_errors st;
       unmatched_files := unmatched_files st;
       error_log := error_log st;
       console := console st ++ [msg];
       history := history st;
       written := written st |}).

(** [b.decode()]. *)
Definition decode (b : bytes) : M string :=
  match utf8_error 0 b with
  | None => ret b
  | Some (start, stop, reason) => raise (UnicodeDecodeError b start stop reason)
  end.

(** [logging.error(msg)]: one more record at the end of the log file that
    [setup_logging] opened; [error_log] is the list of the messages of these
    records, in the order of the file. *)
Definition logging_error (msg : string) : M unit :=
  modify (fun st =>
    {| validation_errors := validation_errors st;
       unmatched_files := unmatched_files st;
       error_log := error_log st ++ [msg];
       console := console st;
       history := history st;
       written := written st |}).

Definition record_action (a : action) : M unit :=
  modify (fun st =>
    {| validation_errors := validation_errors st;
       unmatched_files := unmatched_files st;
       error_log := error_log st;
       console := console st;
       history := history st ++ [a];
       written := written st |}).

(** The outcome of [subprocess.run] when it returns. *)
Record CompletedProcess : Type := {
  returncode : Z;
  stdout : bytes;
  stderr : bytes
}.

Section WithWorld.

Variable w : world.

(** [subprocess.run(argv c, stdout=PIPE, stderr=PIPE, check=check,
    timeout=timeout)]. *)
Definition subprocess_run (c : command) (check : bool) (timeout : option nat)
  : M CompletedProcess :=
  h <- gets history ;;
  record_action (Spawn c) ;;
  match spawn w h c with
  | NotStarted msg => raise (OSError msg)
  | Exited elapsed rc out err =>
      match timeout with
      | Some t => if (t <? elapsed)%nat then raise (TimeoutExpired t) else ret tt
      | None => ret tt
      end ;;
      if check && negb (rc =? 0)%Z then raise (CalledProcessError rc out err)
      else ret {| returncode := rc; stdout := out; stderr := err |}
  end.

(** A file system call: it returns, or raises [OSError]. *)
Definition sys (op : fsop) : M unit :=
  h <- gets history ;;
  record_action (Sys op) ;;
  match syscall w h op with
  | None => ret tt
  | Some msg => raise (OSError msg)
  end.

(** [logging.basicConfig(filename=log_file, ...)], run when the module is
    loaded: the log file is opened for appending. *)
Definition setup_logging (log_file : string) : M unit :=
  sys (OpenLog (joinpath [] log_file)).

(** [with open(p, "w") as f: f.write(content)], the writes concatenated. *)
Definition write_text (p : Path) (content : string) : M unit :=
  sys (WriteText p content) ;;
  modify (fun st =>
    {| validation_errors := validation_errors st;
       unmatched_files := unmatched_files st;
       error_log := error_log st;
       console := console st;
       history := history st;
       written := written st ++ [(p, content)] |}).

End WithWorld.

End Runtime.

(** ** XSLTTransform.py *)

Module XSLTTransform.

Import Py Pathlib Runtime.
Local Open Scope py_scope.

Definition SAXON_JAR : string := "G:/Libraries/saxon-he-12.5.jar".
Definition LOG_FILE : string := "error_log.txt".

Definition nl : string := String (ascii_of_nat 10) EmptyString.

(** [load_xslt_files], on the listing [os.listdir(xslt_dir)] returned. *)
Definition load_xslt_files (listing : list string) : list string :=
  List.filter (fun f => endswith f ".xsl" || endswith f ".xslt") listing.

(** The [for] loop of [find_matching_xslt]. *)
Fixpoint find_matching_xslt_loop (prefix_clean : string) (xslt_files : list string)
  : option string :=
  match xslt_files with
  | [] => None
  | xslt :: rest =>
      let xslt_upper := upper (strip xslt) in
      let statusExist :=
        str_in "STATUS" (upper prefix_clean) && str_in "STATUS" xslt_upper in
      if str_in prefix_clean xslt_upper && statusExist then Some xslt
      else find_matching_xslt_loop prefix_clean rest
  end.

Definition prefix_clean (xml_filename : string) : string :=
  let base_name := stem xml_filename in
  upper (strip (re_sub_digits base_name)).

Definition find_matching_xslt (xml_filename : string) (xslt_files : list string)
  : option string :=
  find_matching_xslt_loop (prefix_clean xml_filename) xslt_files.

(** [validation_errors[key] = value]: an existing key keeps its place. *)
Fixpoint dict_set (key value : string) (d : list (string * string))
  : list (string * string) :=
  match d with
  | [] => [(key, value)]
  | (k, v) :: rest =>
      if String.eqb k key then (k, value) :: rest
      else (k, v) :: dict_set key value rest
  end.

Fixpoint dict_get (key : string) (d : list (string * string)) : option string :=
  match d with
  | [] => None
  | (k, v) :: rest => if String.eqb k key then Some v else dict_get key rest
  end.

Definition set_validation_error (key value : string) : M unit :=
  modify (fun st =>
    {| validation_errors := dict_set key value (validation_errors st);
       unmatched_files := unmatched_files st;
       error_log := error_log st;
       console := console st;
       history := history st;
       written := written st |}).

Definition append_unmatched (p : string) : M unit :=
  modify (fun st =>
    {| validation_errors := validation_errors st;
       unmatched_files := unmatched_files st ++ [p];
       error_log := error_log st;
       console := console st;
       history := history st;
       written := written st |}).

Section WithWorld.

Variable w : world.

Definition format_with_xmllint (file_path : Path) : M unit :=
  let temp_path := joinpath (parent file_path) "temp.xml" in
  try_except
    (subprocess_run w (XmllintFormat file_path temp_path) true None ;;
     subprocess_run w (Mv temp_path file_path) true None ;;
     print ("✨ Formatted XML using xmllint: " ++ str file_path))
    (fun e =>
       match e with
       | CalledProcessError _ _ err =>
           Some (shown <- decode err ;;
                 print (" xmllint formatting failed: " ++ strip_text shown) ;;
                 logged <- decode err ;;
                 logging_error ("xmllint formatting failed for " ++ str file_path
                                ++ ": " ++ strip_text logged))
       | _ => None
       end).

Definition validate_xml_schema (file_path schema_path : Path) : M unit :=
  try_except
    (result <- subprocess_run w (XmllintSchema schema_path file_path) false None ;;
     stdout <- decode (stdout result) ;;
     let stdout := strip_text stdout in
     stderr <- decode (stderr result) ;;
     let stderr := strip_text stderr in
     if (returncode result =? 0)%Z then
       print (" XML is valid: " ++ str file_path)
     else
       let error_msg :=
         str_or stderr (str_or stdout "Validation failed with unknown error.") in
       print (" XML failed validation: " ++ str file_path ++ nl ++ error_msg) ;;
       set_validation_error (str file_path) error_msg)
    (fun e =>
       Some (print (" Exception during schema validation: " ++ str file_path
                    ++ nl ++ exn_str e) ;;
             set_validation_error (str file_path) (exn_str e))).

Definition process_file (input_file_path output_file_path xslt_path : Path)
    (schema_path : option Path) : M bool :=
  try_except
    (subprocess_run w (Saxon SAXON_JAR input_file_path xslt_path output_file_path)
       true (Some 30%nat) ;;
     print (" Transformed: " ++ name input_file_path ++ " → "
            ++ str output_file_path) ;;
     format_with_xmllint output_file_path ;;
     match schema_path with
     | Some schema => validate_xml_schema output_file_path schema
     | None => ret tt
     end ;;
     ret true)
    (fun e =>
       match e with
       | CalledProcessError _ _ err =>
           Some (decoded <- decode err ;;
                 let error := strip_text decoded in
                 print (" Error transforming " ++ str input_file_path ++ ":" ++ nl
                        ++ error) ;;
                 logging_error (str input_file_path ++ " - " ++ error) ;;
                 ret false)
       | _ => None
       end).

(** [p.relative_to(root)]. *)
Fixpoint relative_to (p root : Path) {struct root} : option Path :=
  match root, p with
  | [], _ => Some p
  | r :: root', a :: p' => if String.eqb r a then relative_to p' root' else None
  | _ :: _, [] => None
  end.

Definition ensure_output_path (input_file_path root_dir : Path)
    (modified_folder_name : string) : M Path :=
  match relative_to input_file_path root_dir with
  | None => raise (ValueError "path is not in the subpath of the root")
  | Some relative_path =>
      let modified_base := joinpath (parent root_dir) modified_folder_name in
      let output_file_path := (modified_base ++ relative_path)%list in
      sys w (Mkdir (parent output_file_path)) ;;
      try_except
        (sys w (Chmod (parent output_file_path) 493%N))
        (fun e =>
           Some (print (" Failed to set folder permissions: "
                        ++ str (parent output_file_path) ++ " — " ++ exn_str e))) ;;
      ret output_file_path
  end.

(** The body of the inner loop of [traverse_and_process], for one [file] of
    the directory [current_path]. *)
Definition visit_file (root_dir xslt_dir : Path) (modified_folder_name : string)
    (schema_path : option Path) (xslt_files : list string) (current_path : Path)
    (file : string) : M unit :=
  if endswith (lower file) ".xml" then
    let input_file_path := joinpath current_path file in
    let matching_xslt := find_matching_xslt file xslt_files in
    if negb (truthy matching_xslt) then
      print (" No matching XSLT for: " ++ file) ;;
      logging_error ("No matching XSLT for " ++ file) ;;
      append_unmatched (str input_file_path)
    else
      let xslt_path :=
        joinpath xslt_dir (match matching_xslt with Some x => x | None => EmptyString end) in
      output_file_path <-
        ensure_output_path input_file_path root_dir modified_folder_name ;;
      success <- process_file input_file_path output_file_path xslt_path schema_path ;;
      if negb success then
        print (" Skipping file due to error: " ++ str input_file_path)
      else ret tt
  else ret tt.

(** [modified_folder_name in current_path.parts]. *)
Definition in_parts (name : string) (p : Path) : bool :=
  List.existsb (String.eqb name) p.

(** The body of the outer loop, for one triple yielded by [os.walk]. *)
Definition visit_dir (root_dir xslt_dir : Path) (modified_folder_name : string)
    (schema_path : option Path) (xslt_files : list string)
    (entry : Path * list string * list string) : M unit :=
  let '(current_path, subdirs, files) := entry in
  if in_parts modified_folder_name current_path then ret tt
  else
    for_each files
      (visit_file root_dir xslt_dir modified_folder_name schema_path xslt_files
         current_path).

Definition traverse_and_process (root_dir xslt_dir : Path)
    (modified_folder_name : string) (schema_path : option Path) : M unit :=
  match os_listdir w xslt_dir with
  | inr msg => raise (OSError msg)
  | inl listing =>
      let xslt_files := load_xslt_files listing in
      for_each (os_walk w root_dir)
        (visit_dir root_dir xslt_dir modified_folder_name schema_path xslt_files)
  end.

(** ["s" * n]. *)
Fixpoint repeat_str (s : string) (n : nat) : string :=
  match n with
  | O => EmptyString
  | S n' => s ++ repeat_str s n'
  end.

(** [s.ljust(width)]. *)
Definition ljust (s : string) (width : nat) : string :=
  s ++ repeat_str " " (width - String.length s).

Definition max_len (xs : list string) : nat :=
  List.fold_right (fun s m => Nat.max (String.length s) m) 0%nat xs.

Definition validation_report (errors : list (string * string)) : string :=
  let max_file_len := max_len (List.map fst errors) in
  let max_error_len := max_len (List.map snd errors) in
  let separator :=
    "+" ++ repeat_str "-" (max_file_len + 2) ++ "+"
        ++ repeat_str "-" (max_error_len + 2) ++ "+" in
  " XML Schema Validation Error Report" ++ nl
  ++ separator ++ nl
  ++ "| " ++ ljust "File Path" max_file_len ++ " | "
  ++ ljust "Error" max_error_len ++ " |" ++ nl
  ++ separator ++ nl
  ++ String.concat EmptyString
       (List.map (fun '(filepath, error) =>
                    "| " ++ ljust filepath max_file_len ++ " | "
                    ++ ljust error max_error_len ++ " |" ++ nl) errors)
  ++ separator ++ nl.

Definition write_validation_report_to_txt (script_dir : Path) : M unit :=
  errors <- gets validation_errors ;;
  match errors with
  | [] => print " No validation errors. No report generated."
  | _ :: _ =>
      let report_path := joinpath script_dir "validation_report.txt" in
      write_text w report_path (validation_report errors) ;;
      print (" Validation report written to: " ++ str report_path)
  end.

Definition unmatched_report (files : list string) : string :=
  " Unmatched XML Files (no matching XSLT):" ++ nl ++ nl
  ++ String.concat EmptyString (List.map (fun filepath => filepath ++ nl) files).

Definition write_unmatched_files_report (script_dir : Path) : M unit :=
  files <- gets unmatched_files ;;
  match files with
  | [] => print " All XML files matched with XSLTs."
  | _ :: _ =>
      let report_path := joinpath script_dir "unmatched_files_report.txt" in
      write_text w report_path (unmatched_report files) ;;
      print (" Unmatched files report written to: " ++ str report_path)
  end.

(** The script body under [if __name__ == "__main__"], the configured paths
    taken as arguments.  [script] is the whole script: the module-level
    logging set-up, then [main]. *)
Definition main (root_dir xslt_dir : Path) (schema_path : option Path)
    (modified_folder_name : string) (script_dir : Path) : M unit :=
  traverse_and_process root_dir xslt_dir modified_folder_name schema_path ;;
  write_validation_report_to_txt script_dir ;;
  write_unmatched_files_report script_dir.

Definition script (root_dir xslt_dir : Path) (schema_path : option Path)
    (modified_folder_name : string) (script_dir : Path) : M unit :=
  setup_logging w LOG_FILE ;;
  main root_dir xslt_dir schema_path modified_folder_name script_dir.

End WithWorld.

End XSLTTransform.

(** ** xsltTransformerandScraper.py *)

Module Scraper.

Import Py Pathlib Runtime.
Local Open Scope py_scope.

Definition SAXON_JAR : string := "/absolute/path/to/saxon.jar".
Definition LOG_FILE : string := "error_log.txt".

Definition nl : string := String (ascii_of_nat 10) EmptyString.

Definition load_xslt_files (listing : list string) : list string :=
  List.filter (fun f => endswith f ".xsl" || endswith f ".xslt") listing.

(** The [for] loop of [find_matching_xslt], with its two trace lines. *)
Fixpoint find_matching_xslt_loop (prefix_clean : string) (xslt_files : list string)
  : M (option string) :=
  match xslt_files with
  | [] => ret None
  | xslt :: rest =>
      let xslt_upper := upper (strip xslt) in
      print ("🧪 Testing match: '" ++ prefix_clean ++ "' in '" ++ xslt_upper ++ "'") ;;
      if str_in prefix_clean xslt_upper then
        print ("✅ Match found: " ++ prefix_clean ++ " in " ++ xslt) ;;
        ret (Some xslt)
      else find_matching_xslt_loop prefix_clean rest
  end.

Definition prefix_clean (xml_filename : string) : string :=
  let base_name := stem xml_filename in
  upper (strip (re_sub_digits base_name)).

Definition find_matching_xslt (xml_filename : string) (xslt_files : list string)
  : M (option string) :=
  let prefix_clean := prefix_clean xml_filename in
  found <- find_matching_xslt_loop prefix_clean xslt_files ;;
  match found with
  | Some xslt => ret (Some xslt)
  | None =>
      print ("❌ No match found for: " ++ prefix_clean) ;;
      ret None
  end.

(** The value [find_matching_xslt] returns, its trace lines left out. *)
Fixpoint matching_xslt (prefix_clean : string) (xslt_files : list string)
  : option string :=
  match xslt_files with
  | [] => None
  | xslt :: rest =>
      if str_in prefix_clean (upper (strip xslt)) then Some xslt
      else matching_xslt prefix_clean rest
  end.

Section WithWorld.

Variable w : world.

Definition pretty_print_xml (file_path : Path) : M unit :=
  try_except
    (sys w (PrettyPrint file_path) ;;
     print ("✨ Pretty-printed: " ++ str file_path))
    (fun e =>
       Some (logging_error ("Failed to pretty-print " ++ str file_path ++ ": "
                            ++ exn_str e) ;;
             print ("⚠️ Pretty-print failed for " ++ str file_path))).

Definition process_file (input_file_path output_file_path xslt_path : Path)
  : M bool :=
  try_except
    (subprocess_run w (Saxon SAXON_JAR input_file_path xslt_path output_file_path)
       true (Some 30%nat) ;;
     print ("✅ Transformed: " ++ name input_file_path ++ " → "
            ++ str output_file_path) ;;
     pretty_print_xml output_file_path ;;
     ret true)
    (fun e =>
       match e with
       | CalledProcessError _ _ err =>
           Some (decoded <- decode err ;;
                 let error := strip_text decoded in
                 print ("💥 Error transforming " ++ str input_file_path ++ ":" ++ nl
                        ++ error) ;;
                 logging_error (str input_file_path ++ " - " ++ error) ;;
                 ret false)
       | _ => None
       end).

Fixpoint relative_to (p root : Path) {struct root} : option Path :=
  match root, p with
  | [], _ => Some p
  | r :: root', a :: p' => if String.eqb r a then relative_to p' root' else None
  | _ :: _, [] => None
  end.

Definition ensure_output_path (input_file_path root_dir : Path)
    (modified_folder_name : string) : M Path :=
  match relative_to input_file_path root_dir with
  | None => raise (ValueError "path is not in the subpath of the root")
  | Some relative_path =>
      let output_file_path :=
        (joinpath root_dir modified_folder_name ++ relative_path)%list in
      sys w (Mkdir (parent output_file_path)) ;;
      ret output_file_path
  end.

Definition visit_file (root_dir xslt_dir : Path) (modified_folder_name : string)
    (xslt_files : list string) (current_path : Path) (file : string) : M unit :=
  if endswith (lower file) ".xml" then
    let input_file_path := joinpath current_path file in
    matching_xslt <- find_matching_xslt file xslt_files ;;
    if negb (truthy matching_xslt) then
      print ("❌ No matching XSLT for: " ++ file) ;;
      logging_error ("No matching XSLT for " ++ file)
    else
      let xslt_path :=
        joinpath xslt_dir (match matching_xslt with Some x => x | None => EmptyString end) in
      output_file_path <-
        ensure_output_path input_file_path root_dir modified_folder_name ;;
      success <- process_file input_file_path output_file_path xslt_path ;;
      if negb success then
        print ("⚠️ Skipping file due to error: " ++ str input_file_path)
      else ret tt
  else ret tt.

Definition in_parts (name : string) (p : Path) : bool :=
  List.existsb (String.eqb name) p.

Definition visit_dir (root_dir xslt_dir : Path) (modified_folder_name : string)
    (xslt_files : list string) (entry : Path * list string * list string)
  : M unit :=
  let '(current_path, subdirs, files) := entry in
  if in_parts modified_folder_name current_path then ret tt
  else
    for_each files
      (visit_file root_dir xslt_dir modified_folder_name xslt_files current_path).

Definition traverse_and_process (root_dir xslt_dir : Path)
    (modified_folder_name : string) : M unit :=
  match os_listdir w xslt_dir with
  | inr msg => raise (OSError msg)
  | inl listing =>
      let xslt_files := load_xslt_files listing in
      for_each (os_walk w root_dir)
        (visit_dir root_dir xslt_dir modified_folder_name xslt_files)
  end.

(** The whole script: the module-level logging set-up, then the call under
    [if __name__ == "__main__"], the configured paths taken as arguments. *)
Definition script (root_dir xslt_dir : Path) (modified_folder_name : string)
  : M unit :=
  setup_logging w LOG_FILE ;;
  traverse_and_process root_dir xslt_dir modified_folder_name.

End WithWorld.

End Scraper.


(** * Properties *)

(** ** The matcher *)

Module MatcherSpec.

Import Py Pathlib Runtime.

(** The test of line 36 of XSLTTransform.py on one stylesheet name, for the
    cleaned key [key]. *)
Definition accepts (key xslt : string) : bool :=
  let xslt_upper := upper (strip xslt) in
  str_in key xslt_upper
  && (str_in "STATUS" (upper key) && str_in "STATUS" xslt_upper).

(** The test of line 36 of xsltTransformerandScraper.py. *)
Definition accepts_unguarded (key xslt : string) : bool :=
  str_in key (upper (strip xslt)).

(** The guard as the comment above line 35 words it: both names have STATUS
    or both do not. *)
Definition status_parity (key xslt : string) : bool :=
  Bool.eqb (str_in "STATUS" key) (str_in "STATUS" (upper (strip xslt))).

(** [x] is the first element of [xs] that [test] accepts. *)
Definition first_accepted (test : string -> bool) (xs : list string) (x : string)
  : Prop :=
  exists before after,
    xs = (before ++ x :: after)%list
    /\ test x = true
    /\ Forall (fun y => test y = false) before.

Definition selects (test : string -> bool) (xs : list string) (r : option string)
  : Prop :=
  match r with
  | Some x => first_accepted test xs x
  | None => Forall (fun y => test y = false) xs
  end.

Lemma selects_cons_hit test x xs :
  test x = true -> selects test (x :: xs) (Some x).
Proof.
  intros Hx. exists [], xs. repeat split; auto.
Qed.

Lemma selects_cons_miss test x xs r :
  test x = false -> selects test xs r -> selects test (x :: xs) r.
Proof.
  intros Hx. destruct r as [y|]; simpl.
  - intros (before & after & -> & Hy & Hb).
    exists (x :: before), after. repeat split; auto.
  - intros H. constructor; assumption.
Qed.

Lemma guarded_loop_selects key xs :
  selects (accepts key) xs (XSLTTransform.find_matching_xslt_loop key xs).
Proof.
  induction xs as [|x xs IH]; simpl.
  - constructor.
  - destruct (str_in key (upper (strip x))
              && (str_in "STATUS" (upper key)
                  && str_in "STATUS" (upper (strip x)))) eqn:E.
    + apply selects_cons_hit. exact E.
    + apply selects_cons_miss; [exact E | exact IH].
Qed.

Lemma unguarded_selects key xs :
  selects (accepts_unguarded key) xs (Scraper.matching_xslt key xs).
Proof.
  induction xs as [|x xs IH]; simpl.
  - constructor.
  - destruct (str_in key (upper (strip x))) eqn:E.
    + apply selects_cons_hit. exact E.
    + apply selects_cons_miss; [exact E | exact IH].
Qed.

(** The scraper's matcher returns [matching_xslt] and only prints. *)
Lemma scraper_loop_value key xs st :
  snd (Scraper.find_matching_xslt_loop key xs st) = Ok (Scraper.matching_xslt key xs).
Proof.
  revert st. induction xs as [|x xs IH]; intros st; simpl.
  - reflexivity.
  - unfold bind, print, modify; simpl.
    destruct (str_in key (upper (strip x))); simpl.
    + reflexivity.
    + apply IH.
Qed.

Lemma scraper_value f xs st :
  snd (Scraper.find_matching_xslt f xs st)
  = Ok (Scraper.matching_xslt (Scraper.prefix_clean f) xs).
Proof.
  unfold Scraper.find_matching_xslt, bind.
  pose proof (scraper_loop_value (Scraper.prefix_clean f) xs st) as H.
  destruct (Scraper.find_matching_xslt_loop (Scraper.prefix_clean f) xs st)
    as [st' [r|e]]; simpl in H; try discriminate.
  injection H as ->.
  destruct (Scraper.matching_xslt (Scraper.prefix_clean f) xs); reflexivity.
Qed.

Lemma re_sub_digits_all_digits s :
  all_chars isdigit s = true -> re_sub_digits s = EmptyString.
Proof.
  induction s as [|c s IH]; simpl; [reflexivity|].
  intros H. apply andb_true_iff in H as [Hc Hs].
  rewrite Hc. auto.
Qed.

(** A key without STATUS is accepted by no stylesheet. *)
Lemma guarded_loop_needs_status key xs :
  str_in "STATUS" (upper key) = false ->
  XSLTTransform.find_matching_xslt_loop key xs = None.
Proof.
  intros H. induction xs as [|x xs IH]; simpl; [reflexivity|].
  rewrite H. simpl. rewrite andb_false_r. exact IH.
Qed.

Lemma upper_char_idem c : upper_char (upper_char c) = upper_char c.
Proof.
  destruct c as [[] [] [] [] [] [] [] []]; reflexivity.
Qed.

Lemma upper_idem s : upper (upper s) = upper s.
Proof.
  unfold upper. induction s as [|c s IH]; simpl; [reflexivity|].
  rewrite upper_char_idem, IH. reflexivity.
Qed.

(** A stylesheet the guarded loop accepts has the key as a substring and
    agrees with it on STATUS. *)
Lemma accepts_sound f x :
  accepts (XSLTTransform.prefix_clean f) x = true ->
  accepts_unguarded (XSLTTransform.prefix_clean f) x = true
  /\ status_parity (XSLTTransform.prefix_clean f) x = true.
Proof.
  unfold accepts, accepts_unguarded, status_parity.
  replace (upper (XSLTTransform.prefix_clean f)) with (XSLTTransform.prefix_clean f)
    by (unfold XSLTTransform.prefix_clean; rewrite upper_idem; reflexivity).
  intros H. apply andb_true_iff in H as [H1 H2].
  apply andb_true_iff in H2 as [H2 H3].
  rewrite H1, H2, H3. split; reflexivity.
Qed.

(** C1. The guard of XSLTTransform.py is a conjunction, not the parity the
    comment above it asks for: for [Invoice.xml] and [Invoice.xslt] the key
    is a substring of the candidate and neither name has STATUS, and still
    no stylesheet is returned. *)
Theorem guard_rejects_pair_without_status :
  let key := XSLTTransform.prefix_clean "Invoice.xml" in
  accepts_unguarded key "Invoice.xslt" = true
  /\ status_parity key "Invoice.xslt" = true
  /\ XSLTTransform.find_matching_xslt "Invoice.xml" ["Invoice.xslt"] = None.
Proof.
  repeat split; vm_compute; reflexivity.
Qed.

(** C2. On the two examples of case- and digit-insensitive matching,
    XSLTTransform.py returns no stylesheet (neither name has STATUS), while
    xsltTransformerandScraper.py returns [INVOICE.xslt]. *)
Theorem invoice_examples (st : state) :
  XSLTTransform.find_matching_xslt "Invoice123.xml" ["INVOICE.xslt"] = None
  /\ XSLTTransform.find_matching_xslt "invoice.xml" ["INVOICE.xslt"] = None
  /\ snd (Scraper.find_matching_xslt "Invoice123.xml" ["INVOICE.xslt"] st)
     = Ok (Some "INVOICE.xslt")
  /\ snd (Scraper.find_matching_xslt "invoice.xml" ["INVOICE.xslt"] st)
     = Ok (Some "INVOICE.xslt").
Proof.
  repeat split; try (vm_compute; reflexivity);
    rewrite scraper_value; vm_compute; reflexivity.
Qed.

(** C4. The STATUS guard on the two examples: [Message.xml] is not matched to
    [MessageStatus.xslt] (its key is a substring of the candidate, but only
    the candidate has STATUS), and [MessageStatus.xml] is. *)
Theorem status_guard_examples :
  XSLTTransform.find_matching_xslt "Message.xml" ["MessageStatus.xslt"] = None
  /\ accepts_unguarded (XSLTTransform.prefix_clean "Message.xml") "MessageStatus.xslt"
     = true
  /\ str_in "STATUS" (XSLTTransform.prefix_clean "Message.xml") = false
  /\ str_in "STATUS" (upper (strip "MessageStatus.xslt")) = true
  /\ XSLTTransform.find_matching_xslt "MessageStatus.xml" ["MessageStatus.xslt"]
     = Some "MessageStatus.xslt".
Proof.
  repeat split; vm_compute; reflexivity.
Qed.

(** The variant without the guard does match [Message.xml] to
    [MessageStatus.xslt]. *)
Lemma scraper_matches_message_to_messagestatus (st : state) :
  snd (Scraper.find_matching_xslt "Message.xml" ["MessageStatus.xslt"] st)
  = Ok (Some "MessageStatus.xslt").
Proof.
  rewrite scraper_value. vm_compute. reflexivity.
Qed.

(** Each script returns the first stylesheet, in the order of the list, that
    passes the test its own loop applies, and [None] when none passes; on the
    empty list it returns [None].  A stylesheet that XSLTTransform.py returns
    has the key as a substring and agrees with it on STATUS. *)
Theorem first_match_wins (xml_filename : string) (xslt_files : list string)
    (st : state) :
  selects (accepts (XSLTTransform.prefix_clean xml_filename)) xslt_files
    (XSLTTransform.find_matching_xslt xml_filename xslt_files)
  /\ match XSLTTransform.find_matching_xslt xml_filename xslt_files with
     | Some xslt =>
         accepts_unguarded (XSLTTransform.prefix_clean xml_filename) xslt = true
         /\ status_parity (XSLTTransform.prefix_clean xml_filename) xslt = true
     | None => True
     end
  /\ XSLTTransform.find_matching_xslt xml_filename [] = None
  /\ (exists r,
        snd (Scraper.find_matching_xslt xml_filename xslt_files st) = Ok r
        /\ selects (accepts_unguarded (Scraper.prefix_clean xml_filename))
             xslt_files r)
  /\ snd (Scraper.find_matching_xslt xml_filename [] st) = Ok None.
Proof.
  split; [apply guarded_loop_selects|].
  split.
  { pose proof (guarded_loop_selects (XSLTTransform.prefix_clean xml_filename)
                  xslt_files) as H.
    unfold XSLTTransform.find_matching_xslt.
    destruct (XSLTTransform.find_matching_xslt_loop _ xslt_files) as [xslt|];
      [|exact I].
    destruct H as (before & after & _ & Hx & _).
    apply accepts_sound. exact Hx. }
  split; [reflexivity|].
  split.
  - eexists. split; [apply scraper_value | apply unguarded_selects].
  - rewrite scraper_value. reflexivity.
Qed.

(** The two match conditions in the words of the specification: the key is a
    substring of the candidate, and STATUS is in the key if and only if it
    is in the candidate. *)
Definition spec_match_conditions (key xslt : string) : bool :=
  accepts_unguarded key xslt && status_parity key xslt.

Lemma selects_ext test test' xs r :
  (forall x, test x = test' x) -> selects test xs r -> selects test' xs r.
Proof.
  intros H. destruct r as [x|]; simpl.
  - intros (before & after & E & Hx & Hb). exists before, after.
    split; [exact E|]. split; [rewrite <- H; exact Hx|].
    eapply Forall_impl; [|exact Hb]. intros y Hy. rewrite <- H. exact Hy.
  - apply Forall_impl. intros y Hy. rewrite <- H. exact Hy.
Qed.

Lemma key_is_upper f :
  upper (XSLTTransform.prefix_clean f) = XSLTTransform.prefix_clean f.
Proof. unfold XSLTTransform.prefix_clean. apply upper_idem. Qed.

(** For a key that has STATUS, XSLTTransform.py returns the first stylesheet
    that satisfies the two conditions of the specification; for a key
    without STATUS it returns nothing, whatever the list. *)
Lemma first_match_by_spec_conditions (xml_filename : string)
    (xslt_files : list string) :
  let key := XSLTTransform.prefix_clean xml_filename in
  if str_in "STATUS" key
  then selects (spec_match_conditions key) xslt_files
         (XSLTTransform.find_matching_xslt xml_filename xslt_files)
  else XSLTTransform.find_matching_xslt xml_filename xslt_files = None.
Proof.
  intros key. destruct (str_in "STATUS" key) eqn:Hs.
  - apply (selects_ext (accepts key)); [|apply guarded_loop_selects].
    intros x. unfold spec_match_conditions, accepts, accepts_unguarded, status_parity.
    unfold key at 2. rewrite key_is_upper. fold key. rewrite Hs.
    destruct (str_in key (upper (strip x))),
      (str_in "STATUS" (upper (strip x))); reflexivity.
  - unfold XSLTTransform.find_matching_xslt. fold key.
    apply guarded_loop_needs_status. unfold key. rewrite key_is_upper.
    exact Hs.
Qed.

(** C5. XSLTTransform.py does not return the first stylesheet that satisfies
    the match conditions: for [Order7.xml] the key is [ORDER], and in the
    list [Invoice.xslt], [Order.xslt], [OrderStatus.xslt] the first
    stylesheet that has the key as a substring and agrees with it on STATUS
    is [Order.xslt]; the script returns nothing, while the variant without
    the guard returns [Order.xslt].  On the empty list both return nothing. *)
Theorem first_qualifying_stylesheet_is_skipped (st : state) :
  let xslt_files := ["Invoice.xslt"; "Order.xslt"; "OrderStatus.xslt"] in
  let key := XSLTTransform.prefix_clean "Order7.xml" in
  key = "ORDER"
  /\ spec_match_conditions key "Invoice.xslt" = false
  /\ spec_match_conditions key "Order.xslt" = true
  /\ first_accepted (spec_match_conditions key) xslt_files "Order.xslt"
  /\ XSLTTransform.find_matching_xslt "Order7.xml" xslt_files = None
  /\ snd (Scraper.find_matching_xslt "Order7.xml" xslt_files st)
     = Ok (Some "Order.xslt")
  /\ XSLTTransform.find_matching_xslt "Order7.xml" [] = None
  /\ snd (Scraper.find_matching_xslt "Order7.xml" [] st) = Ok None.
Proof.
  intros xslt_files key.
  split; [vm_compute; reflexivity|].
  split; [vm_compute; reflexivity|].
  split; [vm_compute; reflexivity|].
  split.
  { exists ["Invoice.xslt"], ["OrderStatus.xslt"].
    split; [reflexivity|]. split; [vm_compute; reflexivity|].
    constructor; [vm_compute; reflexivity | constructor]. }
  split; [vm_compute; reflexivity|].
  split; [rewrite scraper_value; vm_compute; reflexivity|].
  split; [vm_compute; reflexivity|].
  rewrite scraper_value. vm_compute. reflexivity.
Qed.

(** C9. In XSLTTransform.py a file name whose stem is made of digits only has
    the empty key, and [find_matching_xslt] returns [None] for it whatever
    the stylesheets are, although the empty key is a substring of every
    candidate. *)
Theorem digit_stem_never_matches (xml_filename : string) (xslt_files : list string) :
  all_chars isdigit (stem xml_filename) = true ->
  XSLTTransform.prefix_clean xml_filename = EmptyString
  /\ (forall xslt, accepts_unguarded EmptyString xslt = true)
  /\ XSLTTransform.find_matching_xslt xml_filename xslt_files = None.
Proof.
  intros Hd.
  assert (Hk : XSLTTransform.prefix_clean xml_filename = EmptyString).
  { unfold XSLTTransform.prefix_clean.
    rewrite (re_sub_digits_all_digits _ Hd). reflexivity. }
  split; [exact Hk|]. split.
  - intros xslt. unfold accepts_unguarded.
    destruct (upper (strip xslt)); reflexivity.
  - unfold XSLTTransform.find_matching_xslt. rewrite Hk.
    apply guarded_loop_needs_status. reflexivity.
Qed.

Lemma digit_stem_never_matches_witness :
  all_chars isdigit (stem "2024.xml") = true
  /\ XSLTTransform.find_matching_xslt "2024.xml" ["2024.xslt"; "STATUS.xslt"] = None.
Proof.
  split; [reflexivity|].
  apply (digit_stem_never_matches "2024.xml" ["2024.xslt"; "STATUS.xslt"]).
  reflexivity.
Defined.

End MatcherSpec.

(** ** Reasoning about runs *)

Module RunLogic.

Import Runtime.
Local Open Scope py_scope.

Section Respects.

Variable R : state -> state -> Prop.
Hypothesis R_refl : forall st, R st st.
Hypothesis R_trans : forall a b c, R a b -> R b c -> R a c.

(** Whatever its outcome, [c] takes a state to an [R]-related one. *)
Definition respects {A} (c : M A) : Prop := forall st, R st (fst (c st)).

Lemma respects_ret {A} (a : A) : respects (ret a).
Proof. intros st. apply R_refl. Qed.

Lemma respects_raise {A} (e : exn) : respects (@raise A e).
Proof. intros st. apply R_refl. Qed.

Lemma respects_gets {A} (f : state -> A) : respects (gets f).
Proof. intros st. apply R_refl. Qed.

Lemma respects_modify (f : state -> state) :
  (forall st, R st (f st)) -> respects (modify f).
Proof. intros H st. apply H. Qed.

Lemma respects_bind {A B} (c : M A) (k : A -> M B) :
  respects c -> (forall a, respects (k a)) -> respects (bind c k).
Proof.
  intros Hc Hk st. unfold bind.
  specialize (Hc st). destruct (c st) as [st' [a|e]]; simpl in *.
  - eapply R_trans; [exact Hc | apply Hk].
  - exact Hc.
Qed.

(** As [respects_bind], the continuation being run only on values [c] can
    return. *)
Lemma respects_bind_val {A B} (V : A -> Prop) (c : M A) (k : A -> M B) :
  respects c ->
  (forall st st' a, c st = (st', Ok a) -> V a) ->
  (forall a, V a -> respects (k a)) ->
  respects (bind c k).
Proof.
  intros Hc HV Hk st. unfold bind.
  specialize (Hc st). specialize (HV st).
  destruct (c st) as [st' [a|e]]; simpl in *.
  - eapply R_trans; [exact Hc | apply Hk, (HV st' a eq_refl)].
  - exact Hc.
Qed.

Lemma respects_try_except {A} (c : M A) (handler : exn -> option (M A)) :
  respects c ->
  (forall e h, handler e = Some h -> respects h) ->
  respects (try_except c handler).
Proof.
  intros Hc Hh st. unfold try_except.
  specialize (Hc st). destruct (c st) as [st' [a|e]]; simpl in *.
  - exact Hc.
  - destruct (handler e) as [h|] eqn:E; simpl.
    + eapply R_trans; [exact Hc | apply (Hh e h E)].
    + exact Hc.
Qed.

Lemma respects_for_each {A} (xs : list A) (body : A -> M unit) :
  (forall x, In x xs -> respects (body x)) -> respects (for_each xs body).
Proof.
  induction xs as [|x xs IH]; intros H; simpl.
  - apply respects_ret.
  - apply respects_bind.
    + apply H. left. reflexivity.
    + intros _. apply IH. intros y Hy. apply H. right. exact Hy.
Qed.

(** A loop that ends normally ran its body, normally, on every element. *)
Lemma for_each_visit {A} (xs : list A) (body : A -> M unit) st st' x :
  (forall y, In y xs -> respects (body y)) ->
  for_each xs body st = (st', Ok tt) ->
  In x xs ->
  exists st1 st2, R st st1 /\ body x st1 = (st2, Ok tt) /\ R st2 st'.
Proof.
  revert st. induction xs as [|y xs IH]; intros st Hb Hrun Hin.
  - destruct Hin.
  - simpl in Hrun. unfold bind in Hrun.
    destruct (body y st) as [sm [[]|e]] eqn:Ey; [|discriminate].
    assert (Hrest : respects (for_each xs body)).
    { apply respects_for_each. intros z Hz. apply Hb. right. exact Hz. }
    destruct Hin as [->|Hin].
    + exists st, sm. split; [apply R_refl|]. split; [exact Ey|].
      specialize (Hrest sm). rewrite Hrun in Hrest. exact Hrest.
    + destruct (IH sm) as (st1 & st2 & H1 & H2 & H3); auto.
      { intros z Hz. apply Hb. right. exact Hz. }
      exists st1, st2. split; [|split; assumption].
      eapply R_trans; [|exact H1].
      specialize (Hb y (or_introl eq_refl) st). rewrite Ey in Hb. exact Hb.
Qed.

End Respects.

(** The history and the list of unmatched files only grow, by actions that
    satisfy [P] and entries that satisfy [Q]. *)
Definition extends (P : action -> Prop) (Q : string -> Prop) (st st' : state)
  : Prop :=
  (exists hs, history st' = (history st ++ hs)%list /\ Forall P hs)
  /\ (exists us, unmatched_files st' = (unmatched_files st ++ us)%list
                 /\ Forall Q us).

Lemma extends_refl P Q st : extends P Q st st.
Proof.
  split; exists []; rewrite app_nil_r; auto.
Qed.

Lemma extends_trans P Q a b c :
  extends P Q a b -> extends P Q b c -> extends P Q a c.
Proof.
  intros [(h1 & E1 & F1) (u1 & G1 & K1)] [(h2 & E2 & F2) (u2 & G2 & K2)].
  split.
  - exists (h1 ++ h2)%list. rewrite E2, E1, app_assoc. split; [reflexivity|].
    apply Forall_app; auto.
  - exists (u1 ++ u2)%list. rewrite G2, G1, app_assoc. split; [reflexivity|].
    apply Forall_app; auto.
Qed.

Lemma extends_same P Q st st' :
  history st' = history st -> unmatched_files st' = unmatched_files st ->
  extends P Q st st'.
Proof.
  intros H1 H2. unfold extends. rewrite H1, H2.
  split; exists []; rewrite app_nil_r; auto.
Qed.

Section Extends.

Variable P : action -> Prop.
Variable Q : string -> Prop.

Local Abbreviation ok := (respects (extends P Q)).

Lemma ok_ret {A} (a : A) : ok (ret a).
Proof. apply respects_ret, extends_refl. Qed.

Lemma ok_raise {A} (e : exn) : ok (@raise A e).
Proof. apply respects_raise, extends_refl. Qed.

Lemma ok_bind {A B} (c : M A) (k : A -> M B) :
  ok c -> (forall a, ok (k a)) -> ok (bind c k).
Proof. apply respects_bind, extends_trans. Qed.

Lemma ok_bind_val {A B} (V : A -> Prop) (c : M A) (k : A -> M B) :
  ok c ->
  (forall st st' a, c st = (st', Ok a) -> V a) ->
  (forall a, V a -> ok (k a)) ->
  ok (bind c k).
Proof. apply respects_bind_val, extends_trans. Qed.

Lemma ok_try_except {A} (c : M A) (handler : exn -> option (M A)) :
  ok c -> (forall e h, handler e = Some h -> ok h) -> ok (try_except c handler).
Proof. apply respects_try_except, extends_trans. Qed.

Lemma ok_for_each {A} (xs : list A) (body : A -> M unit) :
  (forall x, In x xs -> ok (body x)) -> ok (for_each xs body).
Proof. apply respects_for_each; [apply extends_refl | apply extends_trans]. Qed.

Lemma ok_print msg : ok (print msg).
Proof. intros st. apply extends_same; reflexivity. Qed.

Lemma ok_logging_error msg : ok (logging_error msg).
Proof. intros st. apply extends_same; reflexivity. Qed.

Lemma ok_gets {A} (f : state -> A) : ok (gets f).
Proof. apply respects_gets, extends_refl. Qed.

Lemma ok_decode b : ok (decode b).
Proof.
  unfold decode. destruct (utf8_error 0 b) as [[[? ?] ?]|]; [apply ok_raise | apply ok_ret].
Qed.

Lemma ok_record_action a : P a -> ok (record_action a).
Proof.
  intros Ha st. split; simpl.
  - exists [a]. split; [reflexivity | constructor; auto].
  - exists []. rewrite app_nil_r. auto.
Qed.

Lemma ok_subprocess_run w c check timeout :
  P (Spawn c) -> ok (subprocess_run w c check timeout).
Proof.
  intros Hc. unfold subprocess_run.
  apply ok_bind; [apply ok_gets | intros h].
  apply ok_bind; [apply ok_record_action, Hc | intros _].
  destruct (spawn w h c) as [msg | elapsed rc out err]; [apply ok_raise|].
  apply ok_bind.
  - destruct timeout as [t|]; [|apply ok_ret].
    destruct (t <? elapsed)%nat; [apply ok_raise | apply ok_ret].
  - intros _. destruct (check && negb (rc =? 0)%Z); [apply ok_raise | apply ok_ret].
Qed.

Lemma ok_sys w op : P (Sys op) -> ok (sys w op).
Proof.
  intros Hop. unfold sys.
  apply ok_bind; [apply ok_gets | intros h].
  apply ok_bind; [apply ok_record_action, Hop | intros _].
  destruct (syscall w h op); [apply ok_raise | apply ok_ret].
Qed.

Lemma ok_write_text w p content :
  P (Sys (WriteText p content)) -> ok (write_text w p content).
Proof.
  intros Hp. unfold write_text.
  apply ok_bind; [apply ok_sys, Hp | intros _].
  intros st. apply extends_same; reflexivity.
Qed.

End Extends.

Lemma extends_unmatched_In P Q st st' u :
  extends P Q st st' -> In u (unmatched_files st) -> In u (unmatched_files st').
Proof.
  intros [_ (us & -> & _)] H. apply in_or_app. left. exact H.
Qed.

(** One step through a program built from the primitives, for actions that
    meet the invariant trivially. *)
Ltac ok_step :=
  first
    [ apply ok_ret | apply ok_raise | apply ok_print | apply ok_logging_error
    | apply ok_gets | apply ok_decode
    | apply ok_subprocess_run; exact I
    | apply ok_sys; exact I
    | apply ok_write_text; exact I
    | apply ok_bind; [|intros ?] ].

(** A loop whose body does nothing on the elements [keep] rejects is the
    loop over the elements it keeps. *)
Lemma for_each_filter {A} (keep : A -> bool) (xs : list A) (body : A -> M unit) st :
  (forall x s, keep x = false -> body x s = (s, Ok tt)) ->
  for_each xs body st = for_each (List.filter keep xs) body st.
Proof.
  intros Hskip. revert st. induction xs as [|x xs IH]; intros st; simpl.
  - reflexivity.
  - destruct (keep x) eqn:E; simpl; unfold bind.
    + destruct (body x st) as [s [[]|e]]; [apply IH | reflexivity].
    + rewrite (Hskip x st E). apply IH.
Qed.

End RunLogic.

(** ** The per-file pipeline of XSLTTransform.py *)

Module PipelineSpec.

Import Py Pathlib Runtime XSLTTransform.
Local Open Scope py_scope.

(** The message kept for a failed validation: the trimmed standard error,
    else the trimmed standard output, else a fixed text. *)
Definition recorded_message (out err : string) : string :=
  if negb (is_empty (strip_text err)) then strip_text err
  else if negb (is_empty (strip_text out)) then strip_text out
  else "Validation failed with unknown error.".

Lemma dict_get_set key value d :
  dict_get key (dict_set key value d) = Some value.
Proof.
  induction d as [|[k v] d IH]; simpl.
  - rewrite String.eqb_refl. reflexivity.
  - destruct (String.eqb k key) eqn:E; simpl; rewrite E; auto.
Qed.

Lemma str_or_chain out err :
  str_or (strip_text err) (str_or (strip_text out) "Validation failed with unknown error.")
  = recorded_message out err.
Proof.
  unfold recorded_message, str_or.
  destruct (is_empty (strip_text err)); simpl; [|reflexivity].
  destruct (is_empty (strip_text out)); reflexivity.
Qed.

(** C7. [validate_xml_schema] always returns normally.  When the call
    raises, the entry of the file is set to the text of the exception.  When
    xmllint exits, its two streams are decoded first, whatever the exit code:
    if one of them is not UTF-8 the entry of the file is set to the text of
    the decoding error, the standard output being decoded first.  If both
    decode, a zero exit code leaves the error map as it was, and another exit
    code sets the entry of the file to the trimmed standard error, else the
    trimmed standard output, else the fixed text. *)
Theorem validator_records_and_never_raises (w : world) (file_path schema_path : Path)
    (st : state) :
  let recorded msg st' :=
    validation_errors st' = dict_set (str file_path) msg (validation_errors st)
    /\ dict_get (str file_path) (validation_errors st') = Some msg in
  let '(st', r) := validate_xml_schema w file_path schema_path st in
  r = Ok tt
  /\ match spawn w (history st) (XmllintSchema schema_path file_path) with
     | NotStarted msg => recorded msg st'
     | Exited _ rc out err =>
         match utf8_error 0 out with
         | Some (start, stop, reason) =>
             recorded (exn_str (UnicodeDecodeError out start stop reason)) st'
         | None =>
             match utf8_error 0 err with
             | Some (start, stop, reason) =>
                 recorded (exn_str (UnicodeDecodeError err start stop reason)) st'
             | None =>
                 if (rc =? 0)%Z then validation_errors st' = validation_errors st
                 else recorded (recorded_message out err) st'
             end
         end
     end.
Proof.
  unfold validate_xml_schema, try_except, subprocess_run, decode, bind, gets,
    record_action, modify; simpl.
  destruct (spawn w (history st) (XmllintSchema schema_path file_path))
    as [msg | elapsed rc out err]; simpl.
  - split; [reflexivity|]. split; [reflexivity | apply dict_get_set].
  - destruct (utf8_error 0 out) as [[[start stop] reason]|]; simpl.
    { split; [reflexivity|]. split; [reflexivity | apply dict_get_set]. }
    destruct (utf8_error 0 err) as [[[start stop] reason]|]; simpl.
    { split; [reflexivity|]. split; [reflexivity | apply dict_get_set]. }
    destruct (rc =? 0)%Z eqn:E; simpl.
    + split; reflexivity.
    + rewrite str_or_chain. split; [reflexivity|].
      split; [reflexivity | apply dict_get_set].
Qed.

(** The byte 0xFF, which no UTF-8 text contains. *)
Definition not_utf8 : bytes := String (ascii_of_nat 255) EmptyString.

(** xmllint finds the file valid and writes a byte that is not UTF-8. *)
Definition latin1_world : world :=
  {| spawn := fun _ _ => Exited 0 0 EmptyString not_utf8;
     syscall := fun _ _ => None;
     os_listdir := fun _ => inl [];
     os_walk := fun _ => [] |}.

(** An exit code of zero does not always leave the error map alone: here
    xmllint exits with code zero, and an entry is recorded for the file. *)
Lemma zero_exit_can_record_an_error :
  spawn latin1_world [] (XmllintSchema ["/"; "s.xsd"] ["/"; "out"; "a.xml"])
  = Exited 0 0 EmptyString not_utf8
  /\ validation_errors
       (fst (validate_xml_schema latin1_world ["/"; "out"; "a.xml"] ["/"; "s.xsd"]
               initial_state))
     = [("/out/a.xml",
         "'utf-8' codec can't decode byte 0xff in position 0: invalid start byte")].
Proof.
  split; vm_compute; reflexivity.
Qed.

Lemma validate_returns w file_path schema_path st :
  snd (validate_xml_schema w file_path schema_path st) = Ok tt.
Proof.
  unfold validate_xml_schema, try_except, subprocess_run, decode, bind, gets,
    record_action, modify; simpl.
  destruct (spawn w (history st) (XmllintSchema schema_path file_path))
    as [msg | elapsed rc out err]; simpl; [reflexivity|].
  destruct (utf8_error 0 out) as [[[? ?] ?]|]; simpl; [reflexivity|].
  destruct (utf8_error 0 err) as [[[? ?] ?]|]; simpl; [reflexivity|].
  destruct (rc =? 0)%Z; reflexivity.
Qed.

(** Every run of [c] starts, and the standard error of a run that exits with
    a non-zero code is UTF-8. *)
Definition reports_cleanly (w : world) (c : command) : Prop :=
  forall h,
    match spawn w h c with
    | NotStarted _ => False
    | Exited _ rc _ err => rc = 0%Z \/ utf8_error 0 err = None
    end.

(** A formatter whose two commands report cleanly returns normally, whatever
    their exit codes. *)
Lemma format_returns w file_path st :
  (forall f t, reports_cleanly w (XmllintFormat f t)) ->
  (forall s d, reports_cleanly w (Mv s d)) ->
  snd (format_with_xmllint w file_path st) = Ok tt.
Proof.
  intros Hx Hm.
  unfold format_with_xmllint, try_except, subprocess_run, decode, bind, gets,
    record_action, modify, print, logging_error; simpl.
  pose proof (Hx file_path (joinpath (parent file_path) "temp.xml") (history st))
    as H1.
  destruct (spawn w (history st) _) as [msg | e1 rc1 o1 r1]; simpl.
  { destruct H1. }
  destruct (rc1 =? 0)%Z eqn:Z1; simpl.
  - match goal with |- context [spawn w ?h (Mv ?s ?d)] =>
      pose proof (Hm s d h) as H2;
      destruct (spawn w h (Mv s d)) as [msg | e2 rc2 o2 r2] end; simpl.
    { destruct H2. }
    destruct (rc2 =? 0)%Z eqn:Z2; simpl; [reflexivity|].
    destruct H2 as [->|H2]; [discriminate Z2|]. rewrite H2. reflexivity.
  - destruct H1 as [->|H1]; [discriminate Z1|]. rewrite H1. reflexivity.
Qed.

(** A formatter command that cannot be started raises out of
    [format_with_xmllint]. *)
Lemma format_raises_when_not_started w file_path st msg :
  spawn w (history st)
    (XmllintFormat file_path (joinpath (parent file_path) "temp.xml"))
  = NotStarted msg ->
  snd (format_with_xmllint w file_path st) = Raise (OSError msg).
Proof.
  intros E.
  unfold format_with_xmllint, try_except, subprocess_run, bind, gets,
    record_action, modify; simpl.
  rewrite E. reflexivity.
Qed.

(** Once the transform has exited with code zero within its time limit,
    [process_file] returns [True] whenever the formatter's commands report
    cleanly: their exit codes and the outcome of the validation do not
    matter. *)
Lemma process_file_true_after_transform w input output xslt schema st
    elapsed out err :
  spawn w (history st) (Saxon SAXON_JAR input xslt output) = Exited elapsed 0 out err ->
  (elapsed <= 30)%nat ->
  (forall f t, reports_cleanly w (XmllintFormat f t)) ->
  (forall s d, reports_cleanly w (Mv s d)) ->
  snd (process_file w input output xslt schema st) = Ok true.
Proof.
  intros E Ht Hx Hm.
  unfold process_file, try_except, bind at 1.
  unfold subprocess_run at 1. unfold bind at 1, gets, record_action, modify.
  unfold bind at 1. rewrite E.
  assert (Hlt : (30 <? elapsed)%nat = false) by (apply Nat.ltb_ge; exact Ht).
  unfold bind at 1. rewrite Hlt. simpl.
  unfold bind at 1, print, modify. unfold bind at 1.
  match goal with |- context [format_with_xmllint w output ?s] =>
    pose proof (format_returns w output s Hx Hm) as Hf;
    destruct (format_with_xmllint w output s) as [sf rf] end.
  simpl in Hf. subst rf. unfold bind at 1.
  destruct schema as [schema|].
  - pose proof (validate_returns w output schema sf) as Hv.
    destruct (validate_xml_schema w output schema sf) as [sv rv].
    simpl in Hv. subst rv. reflexivity.
  - reflexivity.
Qed.

(** A transform that exits with a non-zero code within its time limit and
    with a standard error that is UTF-8 makes [process_file] log the trimmed
    standard error and return [False]. *)
Lemma process_file_false_on_exit_code w input output xslt schema st
    elapsed rc out err :
  spawn w (history st) (Saxon SAXON_JAR input xslt output) = Exited elapsed rc out err ->
  (elapsed <= 30)%nat ->
  rc <> 0%Z ->
  utf8_error 0 err = None ->
  let '(st', r) := process_file w input output xslt schema st in
  r = Ok false
  /\ error_log st' = (error_log st ++ [(str input ++ " - " ++ strip_text err)%string])%list.
Proof.
  intros E Ht Hrc Hd.
  unfold process_file, try_except, subprocess_run, decode, bind, gets,
    record_action, modify; simpl.
  rewrite E.
  assert (Hlt : (30 <? elapsed)%nat = false) by (apply Nat.ltb_ge; exact Ht).
  rewrite Hlt. simpl.
  assert (Hz : (rc =? 0)%Z = false) by (apply Z.eqb_neq; exact Hrc).
  rewrite Hz. simpl. rewrite Hd. simpl. split; reflexivity.
Qed.

(** A transform that outlives its thirty seconds raises [TimeoutExpired] out
    of [process_file]: no [except] clause matches it, and nothing is logged. *)
Lemma process_file_raises_on_timeout w input output xslt schema st
    elapsed rc out err :
  spawn w (history st) (Saxon SAXON_JAR input xslt output) = Exited elapsed rc out err ->
  (30 < elapsed)%nat ->
  let '(st', r) := process_file w input output xslt schema st in
  r = Raise (TimeoutExpired 30)
  /\ error_log st' = error_log st
  /\ console st' = console st.
Proof.
  intros E Ht.
  unfold process_file, try_except, subprocess_run, bind, gets, record_action,
    modify; simpl.
  rewrite E.
  assert (Hlt : (30 <? elapsed)%nat = true) by (apply Nat.ltb_lt; exact Ht).
  rewrite Hlt. simpl. repeat split; reflexivity.
Qed.

(** Two files that both match [OrderStatus.xslt], in one directory. *)
Definition two_orders : list (Path * list string * list string) :=
  [(["/"; "data"; "in"], [], ["OrderStatus1.xml"; "OrderStatus2.xml"])].

(** The transform engine never answers within thirty seconds. *)
Definition stalled_world : world :=
  {| spawn := fun _ c =>
       match c with
       | Saxon _ _ _ _ => Exited 31 0 EmptyString EmptyString
       | _ => Exited 0 0 EmptyString EmptyString
       end;
     syscall := fun _ _ => None;
     os_listdir := fun _ => inl ["OrderStatus.xslt"];
     os_walk := fun _ => two_orders |}.

(** The transform engine exits at once with code 1. *)
Definition failing_world : world :=
  {| spawn := fun _ c =>
       match c with
       | Saxon _ _ _ _ => Exited 0 1 EmptyString "XTSE0010: bad stylesheet"
       | _ => Exited 0 0 EmptyString EmptyString
       end;
     syscall := fun _ _ => None;
     os_listdir := fun _ => inl ["OrderStatus.xslt"];
     os_walk := fun _ => two_orders |}.

(** The transform succeeds, and xmllint is not installed. *)
Definition no_xmllint_world : world :=
  {| spawn := fun _ c =>
       match c with
       | XmllintFormat _ _ | XmllintSchema _ _ =>
           NotStarted "[Errno 2] No such file or directory: 'xmllint'"
       | _ => Exited 0 0 EmptyString EmptyString
       end;
     syscall := fun _ _ => None;
     os_listdir := fun _ => inl ["OrderStatus.xslt"];
     os_walk := fun _ => two_orders |}.

Definition run_on (w : world) : state * result unit :=
  main w ["/"; "data"; "in"] ["/"; "data"; "xslt"] None "Modified" ["/"; "app"]
    initial_state.

Definition saxon_on (file : string) : action :=
  Spawn (Saxon SAXON_JAR ["/"; "data"; "in"; file]
           ["/"; "data"; "xslt"; "OrderStatus.xslt"]
           ["/"; "data"; "Modified"; file]).

Definition prepare_output : list action :=
  [Sys (Mkdir ["/"; "data"; "Modified"]); Sys (Chmod ["/"; "data"; "Modified"] 493)].

(** C3. A transform that runs into the thirty-second limit is not handled
    like a non-zero exit: [TimeoutExpired] leaves [process_file] and
    [traverse_and_process], so the script stops at the first such file.  The
    second file is never transformed, nothing is logged and no report is
    written. *)
Theorem timeout_aborts_the_run :
  let '(st', r) := run_on stalled_world in
  r = Raise (TimeoutExpired 30)
  /\ history st' = (prepare_output ++ [saxon_on "OrderStatus1.xml"])%list
  /\ error_log st' = []
  /\ unmatched_files st' = []
  /\ written st' = [].
Proof.
  vm_compute. repeat split; reflexivity.
Qed.

(** With a non-zero exit code instead, the same two files are both attempted,
    both failures are logged, and the script runs to its end. *)
Lemma exit_code_failure_is_isolated :
  let '(st', r) := run_on failing_world in
  r = Ok tt
  /\ history st'
     = (prepare_output ++ [saxon_on "OrderStatus1.xml"]
        ++ prepare_output ++ [saxon_on "OrderStatus2.xml"])%list
  /\ error_log st'
     = ["/data/in/OrderStatus1.xml - XTSE0010: bad stylesheet";
        "/data/in/OrderStatus2.xml - XTSE0010: bad stylesheet"].
Proof.
  vm_compute. repeat split; reflexivity.
Qed.

(** C10. [process_file] does not return [True] for every transform that exits
    with code zero: when the formatter cannot be started, the [OSError]
    passes through [format_with_xmllint] and [process_file], which catch
    [CalledProcessError] only. *)
Theorem formatter_launch_failure_escapes_process_file :
  spawn no_xmllint_world []
    (Saxon SAXON_JAR ["/"; "data"; "in"; "OrderStatus1.xml"]
       ["/"; "data"; "xslt"; "OrderStatus.xslt"]
       ["/"; "data"; "Modified"; "OrderStatus1.xml"])
  = Exited 0 0 EmptyString EmptyString
  /\ snd (process_file no_xmllint_world ["/"; "data"; "in"; "OrderStatus1.xml"]
            ["/"; "data"; "Modified"; "OrderStatus1.xml"]
            ["/"; "data"; "xslt"; "OrderStatus.xslt"] None initial_state)
     = Raise (OSError "[Errno 2] No such file or directory: 'xmllint'")
  /\ snd (run_on no_xmllint_world)
     = Raise (OSError "[Errno 2] No such file or directory: 'xmllint'").
Proof.
  vm_compute. repeat split; reflexivity.
Qed.

End PipelineSpec.

(** ** The tree walker of XSLTTransform.py *)

Module WalkerSpec.

Import Py Pathlib Runtime RunLogic XSLTTransform.
Local Open Scope py_scope.

Lemma relative_to_app p root rel :
  relative_to p root = Some rel -> p = (root ++ rel)%list.
Proof.
  revert p. induction root as [|r root IH]; intros p H; simpl in *.
  - injection H as ->. reflexivity.
  - destruct p as [|a p]; [discriminate|].
    destruct (String.eqb r a) eqn:E; [|discriminate].
    apply String.eqb_eq in E. subst a. f_equal. apply IH. exact H.
Qed.

Definition dot_or_sep (c : ascii) : bool :=
  Ascii.eqb c "."%char || Ascii.eqb c "/"%char.

Lemma split_sep_not_nil s : split_sep s <> [].
Proof.
  destruct s as [|c s]; simpl; [discriminate|].
  destruct (Ascii.eqb c "/"%char); [discriminate|].
  destruct (split_sep s); discriminate.
Qed.

(** A string without parts is made of dots and separators. *)
Lemma no_components s : components s = [] -> all_chars dot_or_sep s = true.
Proof.
  unfold components. induction s as [|c s IH]; simpl; [reflexivity|].
  unfold dot_or_sep at 1.
  destruct (Ascii.eqb c "/"%char) eqn:Es; simpl.
  - intros H. rewrite orb_true_r. apply IH, H.
  - pose proof (split_sep_not_nil s) as Hn.
    destruct (split_sep s) as [|h t]; [contradiction|]. simpl in *.
    destruct (Ascii.eqb c "."%char) eqn:Ed; simpl.
    + destruct h as [|d h]; simpl; [|discriminate].
      intros H. apply IH. exact H.
    + discriminate.
Qed.

Lemma all_chars_substring P n m s :
  all_chars P s = true -> all_chars P (String.substring n m s) = true.
Proof.
  revert n m. induction s as [|c s IH]; intros n m H; simpl.
  - destruct n, m; reflexivity.
  - simpl in H. apply andb_true_iff in H as [Hc Hs].
    destruct n as [|n]; [|apply IH, Hs].
    destruct m as [|m]; simpl; [reflexivity|].
    rewrite Hc. apply IH, Hs.
Qed.

Lemma all_chars_lower_dots s :
  all_chars dot_or_sep s = true -> all_chars dot_or_sep (lower s) = true.
Proof.
  induction s as [|c s IH]; simpl; [reflexivity|].
  intros H. apply andb_true_iff in H as [Hc Hs].
  fold (lower s). rewrite (IH Hs), andb_true_r.
  unfold dot_or_sep in *. apply orb_true_iff in Hc as [Hc|Hc];
    apply Ascii.eqb_eq in Hc; subst c; reflexivity.
Qed.

(** The name of an [.xml] file has parts. *)
Lemma xml_name_has_components file :
  endswith (lower file) ".xml" = true -> components file <> [].
Proof.
  intros Hx Hc. apply no_components, all_chars_lower_dots in Hc.
  unfold endswith in Hx. apply andb_true_iff in Hx as [_ Hx].
  apply String.eqb_eq in Hx.
  pose proof (all_chars_substring dot_or_sep
                (String.length (lower file) - String.length ".xml")
                (String.length ".xml") (lower file) Hc) as H.
  rewrite Hx in H. discriminate H.
Qed.

Lemma last_app_nonempty {A} (l1 l2 : list A) (d : A) :
  l2 <> [] -> List.last (l1 ++ l2) d = List.last l2 d.
Proof.
  intros H. induction l1 as [|x l1 IH]; simpl; [reflexivity|].
  rewrite IH. destruct (l1 ++ l2)%list eqn:E; [|reflexivity].
  apply app_eq_nil in E as [_ E]. contradiction.
Qed.

(** The last part of the path of an [.xml] file is the name the matcher
    works with. *)
Lemma joinpath_name current_path file :
  endswith (lower file) ".xml" = true ->
  List.last (joinpath current_path file) EmptyString = name_of file.
Proof.
  intros Hx. pose proof (xml_name_has_components file Hx) as Hc.
  unfold joinpath, name_of. fold (components file).
  destruct (root_of file) as [root|].
  - apply (last_app_nonempty [root] _ _ Hc).
  - apply last_app_nonempty, Hc.
Qed.

Lemma matcher_reads_name file file' xslt_files :
  name_of file = name_of file' ->
  find_matching_xslt file xslt_files = find_matching_xslt file' xslt_files.
Proof.
  intros H. unfold find_matching_xslt, prefix_clean, stem. rewrite H. reflexivity.
Qed.

Lemma startswith_app s t : startswith (s ++ t) s = true.
Proof.
  induction s as [|c s IH]; simpl.
  - destruct t; reflexivity.
  - rewrite Ascii.eqb_refl. exact IH.
Qed.

Lemma str_in_here s t : str_in s (s ++ t) = true.
Proof.
  destruct s as [|c s]; simpl.
  - destruct t; reflexivity.
  - rewrite Ascii.eqb_refl, startswith_app. reflexivity.
Qed.

Lemma str_in_refl s : str_in s s = true.
Proof.
  destruct s as [|c s]; simpl; [reflexivity|].
  rewrite Ascii.eqb_refl. simpl.
  assert (H : startswith s s = true).
  { clear c. induction s as [|d s IH]; simpl; [reflexivity|].
    rewrite Ascii.eqb_refl. exact IH. }
  rewrite H. reflexivity.
Qed.

Lemma str_in_app_r sub a b : str_in sub b = true -> str_in sub (a ++ b) = true.
Proof.
  intros H. induction a as [|c a IH]; simpl; [exact H|].
  rewrite IH. apply orb_true_r.
Qed.

Lemma str_in_lines (x : string) (xs : list string) (sep : string) :
  In x xs ->
  str_in (x ++ sep)
    (String.concat EmptyString (List.map (fun f => f ++ sep) xs)) = true.
Proof.
  induction xs as [|y xs IH]; intros Hin; [destruct Hin|].
  simpl. destruct xs as [|z xs].
  - destruct Hin as [->|[]]. simpl.
    apply str_in_refl.
  - destruct Hin as [->|Hin].
    + apply str_in_here.
    + apply str_in_app_r. simpl. apply IH. exact Hin.
Qed.

Section Walk.

Variable w : world.
Variables root_dir xslt_dir : Path.
Variable modified_folder_name : string.
Variable schema_path : option Path.

(** The stylesheets the run works with. *)
Definition xslt_files_of : list string :=
  match os_listdir w xslt_dir with
  | inl listing => load_xslt_files listing
  | inr _ => []
  end.

(** [file] is listed in a directory that [os.walk] yields and whose parts do
    not contain the output folder name. *)
Definition visited (current_path : Path) (file : string) : Prop :=
  in_parts modified_folder_name current_path = false
  /\ exists subdirs files,
       In (current_path, subdirs, files) (os_walk w root_dir) /\ In file files.

(** [o] is the output path of the input path [s]. *)
Definition output_of (s o : Path) : Prop :=
  exists rel,
    relative_to s root_dir = Some rel
    /\ o = (joinpath (parent root_dir) modified_folder_name ++ rel)%list.

(** Every transform is run on a visited file that has a stylesheet, and
    writes to the output path of that file. *)
Definition transform_of_visited (a : action) : Prop :=
  match a with
  | Spawn (Saxon _ s _ o) =>
      exists current_path file,
        visited current_path file
        /\ s = joinpath current_path file
        /\ truthy (find_matching_xslt file xslt_files_of) = true
        /\ output_of s o
        /\ endswith (lower file) ".xml" = true
  | _ => True
  end.

Definition unmatched_of_visited (u : string) : Prop :=
  exists current_path file,
    visited current_path file /\ u = str (joinpath current_path file).

Local Abbreviation ok := (respects (extends transform_of_visited unmatched_of_visited)).

Lemma ok_set_validation_error key value : ok (set_validation_error key value).
Proof. intros st. apply extends_same; reflexivity. Qed.

Lemma ok_format file_path : ok (format_with_xmllint w file_path).
Proof.
  unfold format_with_xmllint. apply ok_try_except.
  - repeat ok_step.
  - intros e h. destruct e; intros [=<-]. repeat ok_step.
Qed.

Lemma ok_validate file_path schema : ok (validate_xml_schema w file_path schema).
Proof.
  unfold validate_xml_schema. apply ok_try_except.
  - ok_step; [ok_step|].
    destruct (returncode a =? 0)%Z; repeat ok_step.
  - intros e h [=<-]. repeat ok_step.
Qed.

Lemma ok_process_file input output xslt :
  transform_of_visited (Spawn (Saxon SAXON_JAR input xslt output)) ->
  ok (process_file w input output xslt schema_path).
Proof.
  intros HP. unfold process_file. apply ok_try_except.
  - apply ok_bind; [apply ok_subprocess_run, HP | intros _].
    ok_step; [ok_step|]. ok_step; [apply ok_format|].
    ok_step; [|ok_step].
    destruct schema_path; [apply ok_validate | ok_step].
  - intros e h. destruct e; intros [=<-]. repeat ok_step.
Qed.

Lemma ensure_output_path_value input st st' o :
  ensure_output_path w input root_dir modified_folder_name st = (st', Ok o) ->
  output_of input o.
Proof.
  unfold ensure_output_path, output_of.
  destruct (relative_to input root_dir) as [rel|]; [|discriminate].
  intros H. exists rel. split; [reflexivity|].
  unfold bind in H.
  destruct (sys w _ st) as [s1 [[]|e1]]; [|discriminate].
  destruct (try_except _ _ s1) as [s2 [[]|e2]]; [|discriminate].
  unfold ret in H. injection H as _ <-. reflexivity.
Qed.

Lemma ok_ensure_output_path input :
  ok (ensure_output_path w input root_dir modified_folder_name).
Proof.
  unfold ensure_output_path.
  destruct (relative_to input root_dir); [|ok_step].
  ok_step; [ok_step|]. ok_step; [|ok_step].
  apply ok_try_except; [ok_step|].
  intros e h [=<-]. ok_step.
Qed.

Lemma ok_append_unmatched u : unmatched_of_visited u -> ok (append_unmatched u).
Proof.
  intros Hu st. split; simpl.
  - exists []. rewrite app_nil_r. auto.
  - exists [u]. split; [reflexivity | constructor; auto].
Qed.

Lemma ok_visit_file current_path file :
  visited current_path file ->
  ok (visit_file w root_dir xslt_dir modified_folder_name schema_path
        xslt_files_of current_path file).
Proof.
  intros Hv. unfold visit_file.
  destruct (endswith (lower file) ".xml") eqn:Ex; [|ok_step].
  destruct (truthy (find_matching_xslt file xslt_files_of)) eqn:Et; simpl.
  - apply (ok_bind_val _ _ (output_of (joinpath current_path file))).
    + apply ok_ensure_output_path.
    + intros st st' o. apply ensure_output_path_value.
    + intros o Ho. ok_step.
      * apply ok_process_file. exists current_path, file. auto 6.
      * destruct (negb a); ok_step.
  - ok_step; [ok_step|]. ok_step; [ok_step|].
    apply ok_append_unmatched. exists current_path, file. auto.
Qed.

Lemma ok_visit_dir entry :
  In entry (os_walk w root_dir) ->
  ok (visit_dir w root_dir xslt_dir modified_folder_name schema_path
        xslt_files_of entry).
Proof.
  destruct entry as [[current_path subdirs] files]. intros Hin. simpl.
  destruct (in_parts modified_folder_name current_path) eqn:Ep; [ok_step|].
  apply ok_for_each. intros file Hf. apply ok_visit_file.
  split; [exact Ep|]. exists subdirs, files. auto.
Qed.

Lemma ok_traverse :
  ok (traverse_and_process w root_dir xslt_dir modified_folder_name schema_path).
Proof.
  unfold traverse_and_process.
  pose proof ok_visit_dir as H. unfold xslt_files_of in H.
  destruct (os_listdir w xslt_dir) as [listing|msg]; [|ok_step].
  apply ok_for_each. exact H.
Qed.

Lemma ok_write_validation_report script_dir :
  ok (write_validation_report_to_txt w script_dir).
Proof.
  unfold write_validation_report_to_txt. ok_step; [ok_step|].
  destruct a; repeat ok_step.
Qed.

Lemma ok_write_unmatched_report script_dir :
  ok (write_unmatched_files_report w script_dir).
Proof.
  unfold write_unmatched_files_report. ok_step; [ok_step|].
  destruct a; repeat ok_step.
Qed.

Lemma ok_main script_dir :
  ok (main w root_dir xslt_dir schema_path modified_folder_name script_dir).
Proof.
  unfold main. ok_step; [apply ok_traverse|].
  ok_step; [apply ok_write_validation_report | apply ok_write_unmatched_report].
Qed.

End Walk.


(** The second end-to-end scenario: [B/Unknown.xml] under the input root and
    [Invoice.xslt] alone in the stylesheet directory. *)
Definition unknown_world : world :=
  {| spawn := fun _ _ => Exited 0 0 EmptyString EmptyString;
     syscall := fun _ _ => None;
     os_listdir := fun _ => inl ["Invoice.xslt"];
     os_walk := fun _ =>
       [(["/"; "data"; "in"], ["B"], []);
        (["/"; "data"; "in"; "B"], [], ["Unknown.xml"])] |}.


(** The transform was run on a visited file. *)
Definition source_visited (w : world) (root_dir : Path)
    (modified_folder_name : string) (a : action) : Prop :=
  match a with
  | Spawn (Saxon _ s _ _) =>
      exists current_path file,
        visited w root_dir modified_folder_name current_path file
        /\ s = joinpath current_path file
  | _ => True
  end.

(** The world in which [os.walk] does not yield the directories whose parts
    contain [modified_folder_name]; all else is as in [w]. *)
Definition prune (modified_folder_name : string) (w : world) : world :=
  {| spawn := spawn w;
     syscall := syscall w;
     os_listdir := os_listdir w;
     os_walk := fun root =>
       List.filter (fun entry => negb (in_parts modified_folder_name (fst (fst entry))))
         (os_walk w root) |}.

Lemma traverse_pruned w root_dir xslt_dir modified_folder_name schema_path st :
  traverse_and_process w root_dir xslt_dir modified_folder_name schema_path st
  = traverse_and_process (prune modified_folder_name w) root_dir xslt_dir
      modified_folder_name schema_path st.
Proof.
  unfold traverse_and_process. simpl.
  destruct (os_listdir w xslt_dir) as [listing|msg]; [|reflexivity].
  change (visit_dir (prune modified_folder_name w))
    with (visit_dir w).
  apply for_each_filter.
  intros [[current_path subdirs] files] s Hk. simpl in *.
  apply negb_false_iff in Hk. rewrite Hk. reflexivity.
Qed.

Lemma traverse_sources w root_dir xslt_dir modified_folder_name schema_path st :
  extends (source_visited w root_dir modified_folder_name)
    (unmatched_of_visited w root_dir modified_folder_name) st
    (fst (traverse_and_process w root_dir xslt_dir modified_folder_name
            schema_path st)).
Proof.
  destruct (ok_traverse w root_dir xslt_dir modified_folder_name schema_path st)
    as [(hs & Eh & Fh) Hu].
  split; [|exact Hu].
  exists hs. split; [exact Eh|].
  eapply Forall_impl; [|exact Fh].
  intros [[jar s x o| | |]|op]; simpl; auto.
  intros (cur & file & Hv & Es & _). exists cur, file. auto.
Qed.

End WalkerSpec.

(** ** The tree walker of xsltTransformerandScraper.py, and the skipped
    output folder in both scripts *)

Module OutputFolderSpec.

Import Py Pathlib Runtime RunLogic.
Local Open Scope py_scope.

Section Walk.

Variable w : world.
Variables root_dir xslt_dir : Path.
Variable modified_folder_name : string.

Local Abbreviation ok :=
  (respects (extends (WalkerSpec.source_visited w root_dir modified_folder_name)
                     (fun _ => False))).

Lemma scraper_ok_find_loop key xs : ok (Scraper.find_matching_xslt_loop key xs).
Proof.
  induction xs as [|x xs IH]; simpl; [ok_step|].
  ok_step; [ok_step|].
  destruct (str_in key (upper (strip x))); [repeat ok_step | exact IH].
Qed.

Lemma scraper_ok_find file xs : ok (Scraper.find_matching_xslt file xs).
Proof.
  unfold Scraper.find_matching_xslt.
  apply ok_bind; [apply scraper_ok_find_loop | intros found].
  destruct found; repeat ok_step.
Qed.

Lemma scraper_ok_pretty file_path : ok (Scraper.pretty_print_xml w file_path).
Proof.
  unfold Scraper.pretty_print_xml. apply ok_try_except.
  - repeat ok_step.
  - intros e h [=<-]. repeat ok_step.
Qed.

Lemma scraper_ok_process_file input output xslt :
  WalkerSpec.source_visited w root_dir modified_folder_name
    (Spawn (Saxon Scraper.SAXON_JAR input xslt output)) ->
  ok (Scraper.process_file w input output xslt).
Proof.
  intros HP. unfold Scraper.process_file. apply ok_try_except.
  - apply ok_bind; [apply ok_subprocess_run, HP | intros _].
    ok_step; [ok_step|]. ok_step; [apply scraper_ok_pretty | ok_step].
  - intros e h. destruct e; intros [=<-]. repeat ok_step.
Qed.

Lemma scraper_ok_ensure_output_path input :
  ok (Scraper.ensure_output_path w input root_dir modified_folder_name).
Proof.
  unfold Scraper.ensure_output_path.
  destruct (Scraper.relative_to input root_dir); repeat ok_step.
Qed.

Lemma scraper_ok_visit_file xslt_files current_path file :
  WalkerSpec.visited w root_dir modified_folder_name current_path file ->
  ok (Scraper.visit_file w root_dir xslt_dir modified_folder_name xslt_files
        current_path file).
Proof.
  intros Hv. unfold Scraper.visit_file.
  destruct (endswith (lower file) ".xml"); [|ok_step].
  apply ok_bind; [apply scraper_ok_find | intros matching].
  destruct (negb (truthy matching)); [repeat ok_step|].
  apply ok_bind; [apply scraper_ok_ensure_output_path | intros output].
  apply ok_bind.
  - apply scraper_ok_process_file. exists current_path, file. auto.
  - intros success. destruct (negb success); ok_step.
Qed.

Lemma scraper_ok_visit_dir xslt_files entry :
  In entry (os_walk w root_dir) ->
  ok (Scraper.visit_dir w root_dir xslt_dir modified_folder_name xslt_files entry).
Proof.
  destruct entry as [[current_path subdirs] files]. intros Hin. simpl.
  destruct (Scraper.in_parts modified_folder_name current_path) eqn:Ep; [ok_step|].
  apply ok_for_each. intros file Hf. apply scraper_ok_visit_file.
  split; [exact Ep|]. exists subdirs, files. auto.
Qed.

Lemma scraper_ok_traverse :
  ok (Scraper.traverse_and_process w root_dir xslt_dir modified_folder_name).
Proof.
  unfold Scraper.traverse_and_process.
  destruct (os_listdir w xslt_dir) as [listing|msg]; [|ok_step].
  apply ok_for_each. intros entry. apply scraper_ok_visit_dir.
Qed.

Lemma scraper_traverse_pruned st :
  Scraper.traverse_and_process w root_dir xslt_dir modified_folder_name st
  = Scraper.traverse_and_process (WalkerSpec.prune modified_folder_name w)
      root_dir xslt_dir modified_folder_name st.
Proof.
  unfold Scraper.traverse_and_process. simpl.
  destruct (os_listdir w xslt_dir) as [listing|msg]; [|reflexivity].
  change (Scraper.visit_dir (WalkerSpec.prune modified_folder_name w))
    with (Scraper.visit_dir w).
  apply for_each_filter.
  intros [[current_path subdirs] files] s Hk. simpl in *.
  apply negb_false_iff in Hk.
  change (Scraper.in_parts modified_folder_name current_path = true) in Hk.
  rewrite Hk. reflexivity.
Qed.

End Walk.

(** What a run of the walker added to the state: the actions it took and the
    unmatched entries it recorded. *)
Definition added (st st' : state) (hs : list action) (us : list string) : Prop :=
  history st' = (history st ++ hs)%list
  /\ unmatched_files st' = (unmatched_files st ++ us)%list.

(** C8. In both scripts the walker does nothing for a directory whose parts
    contain the output folder name: the run is the run in which [os.walk]
    never yields such directories, whatever they hold.  Every transform the
    walker starts has as its source a file listed in a yielded directory
    without that part, and every unmatched entry it records is the path of
    such a file. *)
Theorem walker_skips_output_folder (w : world) (root_dir xslt_dir : Path)
    (modified_folder_name : string) (schema_path : option Path) (st : state) :
  let from_visited := WalkerSpec.source_visited w root_dir modified_folder_name in
  let t := XSLTTransform.traverse_and_process w root_dir xslt_dir
             modified_folder_name schema_path st in
  let s := Scraper.traverse_and_process w root_dir xslt_dir
             modified_folder_name st in
  t = XSLTTransform.traverse_and_process (WalkerSpec.prune modified_folder_name w)
        root_dir xslt_dir modified_folder_name schema_path st
  /\ (exists hs us,
        added st (fst t) hs us
        /\ Forall from_visited hs
        /\ Forall (WalkerSpec.unmatched_of_visited w root_dir modified_folder_name) us)
  /\ s = Scraper.traverse_and_process (WalkerSpec.prune modified_folder_name w)
           root_dir xslt_dir modified_folder_name st
  /\ (exists hs, added st (fst s) hs [] /\ Forall from_visited hs).
Proof.
  intros from_visited t s. split; [apply WalkerSpec.traverse_pruned|].
  split.
  - destruct (WalkerSpec.traverse_sources w root_dir xslt_dir
                modified_folder_name schema_path st)
      as [(hs & Eh & Fh) (us & Eu & Fu)].
    exists hs, us. repeat split; assumption.
  - split; [apply scraper_traverse_pruned|].
    destruct (scraper_ok_traverse w root_dir xslt_dir modified_folder_name st)
      as [(hs & Eh & Fh) (us & Eu & Fu)].
    exists hs. split; [split|]; [exact Eh | | exact Fh].
    destruct us as [|u us]; [exact Eu|].
    inversion Fu as [|? ? []].
Qed.

End OutputFolderSpec.

(** * Further properties of the two scripts *)

(** ** The matcher: what the key depends on *)

Module MatcherFacts.

Import Py Pathlib Runtime MatcherSpec.

Lemma isdigit_upper c : isdigit (upper_char c) = isdigit c.
Proof. destruct c as [[] [] [] [] [] [] [] []]; reflexivity. Qed.

Lemma isspace_upper c : isspace (upper_char c) = isspace c.
Proof. destruct c as [[] [] [] [] [] [] [] []]; reflexivity. Qed.

Lemma is_dot_upper c : Ascii.eqb (upper_char c) "."%char = Ascii.eqb c "."%char.
Proof. destruct c as [[] [] [] [] [] [] [] []]; reflexivity. Qed.

Lemma is_sep_upper c : Ascii.eqb (upper_char c) "/"%char = Ascii.eqb c "/"%char.
Proof. destruct c as [[] [] [] [] [] [] [] []]; reflexivity. Qed.

Lemma is_empty_upper s : is_empty (upper s) = is_empty s.
Proof. destruct s; reflexivity. Qed.

Lemma length_upper s : String.length (upper s) = String.length s.
Proof. induction s as [|c s IH]; simpl; [reflexivity | f_equal; exact IH]. Qed.

Lemma re_sub_digits_upper s : re_sub_digits (upper s) = upper (re_sub_digits s).
Proof.
  induction s as [|c s IH]; simpl; [reflexivity|].
  rewrite isdigit_upper. fold (upper s). rewrite IH.
  destruct (isdigit c); reflexivity.
Qed.

Lemma lstrip_upper s : lstrip (upper s) = upper (lstrip s).
Proof.
  induction s as [|c s IH]; simpl; [reflexivity|].
  rewrite isspace_upper. fold (upper s).
  destruct (isspace c); [exact IH | reflexivity].
Qed.

Lemma rstrip_upper s : rstrip (upper s) = upper (rstrip s).
Proof.
  induction s as [|c s IH]; simpl; [reflexivity|].
  rewrite isspace_upper. fold (upper s). rewrite IH, is_empty_upper.
  destruct (isspace c && is_empty (rstrip s)); reflexivity.
Qed.

Lemma strip_upper s : strip (upper s) = upper (strip s).
Proof. unfold strip. rewrite lstrip_upper, rstrip_upper. reflexivity. Qed.

Lemma split_sep_upper s : split_sep (upper s) = List.map upper (split_sep s).
Proof.
  induction s as [|c s IH]; simpl; [reflexivity|].
  rewrite is_sep_upper. fold (upper s). rewrite IH.
  destruct (Ascii.eqb c "/"%char); [reflexivity|].
  destruct (split_sep s); reflexivity.
Qed.

Lemma is_dot_name_upper s : String.eqb (upper s) "." = String.eqb s ".".
Proof.
  destruct s as [|c [|d s]]; simpl; try reflexivity.
  - rewrite is_dot_upper. reflexivity.
  - rewrite is_dot_upper. reflexivity.
Qed.

Lemma last_map {A B} (f : A -> B) (l : list A) (d : A) :
  List.last (List.map f l) (f d) = f (List.last l d).
Proof.
  induction l as [|x [|y l] IH]; simpl in *; auto.
Qed.

Lemma components_upper (l : list string) :
  List.filter (fun c => negb (is_empty c || String.eqb c ".")) (List.map upper l)
  = List.map upper
      (List.filter (fun c => negb (is_empty c || String.eqb c ".")) l).
Proof.
  induction l as [|x l IH]; simpl; [reflexivity|].
  rewrite is_empty_upper, is_dot_name_upper.
  destruct (negb (is_empty x || String.eqb x ".")); simpl; rewrite IH; reflexivity.
Qed.

Lemma name_of_upper s : name_of (upper s) = upper (name_of s).
Proof.
  unfold name_of. rewrite split_sep_upper, components_upper.
  apply (last_map upper _ EmptyString).
Qed.

Lemma rfind_dot_upper s : rfind_dot (upper s) = rfind_dot s.
Proof.
  induction s as [|c s IH]; simpl; [reflexivity|].
  fold (upper s). rewrite IH, is_dot_upper. reflexivity.
Qed.

Lemma substring_upper n m s :
  String.substring n m (upper s) = upper (String.substring n m s).
Proof.
  revert n m. induction s as [|c s IH]; intros n m; simpl.
  - destruct n, m; reflexivity.
  - fold (upper s). destruct n as [|n].
    + destruct m as [|m]; simpl; [reflexivity|]. rewrite IH. reflexivity.
    + apply IH.
Qed.

Lemma stem_upper s : stem (upper s) = upper (stem s).
Proof.
  unfold stem, stem_of_name. rewrite name_of_upper, rfind_dot_upper, length_upper.
  destruct (rfind_dot (name_of s)) as [i|]; [|reflexivity].
  destruct ((0 <? i)%nat && (i <? String.length (name_of s) - 1)%nat);
    [apply substring_upper | reflexivity].
Qed.

(** The key of a file name is read off its upper-cased form. *)
Lemma prefix_clean_upper f :
  XSLTTransform.prefix_clean f = strip (re_sub_digits (stem (upper f))).
Proof.
  unfold XSLTTransform.prefix_clean.
  rewrite stem_upper, re_sub_digits_upper, strip_upper. reflexivity.
Qed.

Lemma guarded_loop_upper key xs xs' :
  List.map upper xs = List.map upper xs' ->
  option_map upper (XSLTTransform.find_matching_xslt_loop key xs)
  = option_map upper (XSLTTransform.find_matching_xslt_loop key xs').
Proof.
  revert xs'. induction xs as [|x xs IH]; intros [|x' xs'] H; simpl in H;
    try discriminate; [reflexivity|].
  injection H as Hx Hxs. simpl.
  rewrite <- !strip_upper, Hx.
  destruct (str_in key (strip (upper x'))
            && (str_in "STATUS" (upper key) && str_in "STATUS" (strip (upper x')))).
  - simpl. f_equal. exact Hx.
  - apply IH. exact Hxs.
Qed.

Lemma unguarded_upper key xs xs' :
  List.map upper xs = List.map upper xs' ->
  option_map upper (Scraper.matching_xslt key xs)
  = option_map upper (Scraper.matching_xslt key xs').
Proof.
  revert xs'. induction xs as [|x xs IH]; intros [|x' xs'] H; simpl in H;
    try discriminate; [reflexivity|].
  injection H as Hx Hxs. simpl.
  rewrite <- !strip_upper, Hx.
  destruct (str_in key (strip (upper x'))).
  - simpl. f_equal. exact Hx.
  - apply IH. exact Hxs.
Qed.

Definition value_of {A} (r : result A) : option A :=
  match r with Ok a => Some a | Raise _ => None end.

(** In both scripts the choice depends on the file name and on the
    stylesheet names only up to ASCII case: names that agree once upper-cased
    select the stylesheet at the same place of the list. *)
Theorem matching_ignores_case (f f' : string) (xs xs' : list string) (st : state) :
  upper f = upper f' ->
  List.map upper xs = List.map upper xs' ->
  option_map upper (XSLTTransform.find_matching_xslt f xs)
  = option_map upper (XSLTTransform.find_matching_xslt f' xs')
  /\ option_map (option_map upper) (value_of (snd (Scraper.find_matching_xslt f xs st)))
     = option_map (option_map upper)
         (value_of (snd (Scraper.find_matching_xslt f' xs' st))).
Proof.
  intros Hf Hxs. split.
  - unfold XSLTTransform.find_matching_xslt.
    rewrite (prefix_clean_upper f), (prefix_clean_upper f'), Hf.
    apply guarded_loop_upper. exact Hxs.
  - rewrite !scraper_value. simpl. f_equal.
    change (Scraper.prefix_clean f) with (XSLTTransform.prefix_clean f).
    change (Scraper.prefix_clean f') with (XSLTTransform.prefix_clean f').
    rewrite (prefix_clean_upper f), (prefix_clean_upper f'), Hf.
    apply unguarded_upper. exact Hxs.
Qed.

Lemma matching_ignores_case_witness :
  option_map upper
    (XSLTTransform.find_matching_xslt "orderStatus7.xml" ["a.xsl"; "OrderStatus.xslt"])
  = option_map upper
      (XSLTTransform.find_matching_xslt "ORDERSTATUS7.XML" ["A.XSL"; "orderstatus.XSLT"]).
Proof.
  apply (matching_ignores_case "orderStatus7.xml" "ORDERSTATUS7.XML"
           ["a.xsl"; "OrderStatus.xslt"] ["A.XSL"; "orderstatus.XSLT"] initial_state);
    reflexivity.
Defined.

(** [s] has no path separator. *)
Definition no_sep (s : string) : bool :=
  all_chars (fun c => negb (Ascii.eqb c "/"%char)) s.

(** [ext] is a dot followed by one or more characters, none of them a dot
    or a separator. *)
Definition plain_extension (ext : string) : bool :=
  match ext with
  | String c e =>
      Ascii.eqb c "."%char && negb (is_empty e)
      && all_chars (fun c => negb (Ascii.eqb c "."%char) && negb (Ascii.eqb c "/"%char)) e
  | EmptyString => false
  end.

Lemma split_sep_no_sep s : no_sep s = true -> split_sep s = [s].
Proof.
  unfold no_sep. induction s as [|c s IH]; simpl; [reflexivity|].
  intros H. apply andb_true_iff in H as [Hc Hs].
  apply negb_true_iff in Hc. rewrite Hc, (IH Hs). reflexivity.
Qed.

Lemma no_sep_app s t : no_sep s = true -> no_sep t = true -> no_sep (s ++ t) = true.
Proof.
  unfold no_sep. intros Hs Ht. induction s as [|c s IH]; simpl in *; [exact Ht|].
  apply andb_true_iff in Hs as [Hc Hs]. rewrite Hc. simpl. apply IH, Hs.
Qed.

Lemma length_app s t : String.length (s ++ t) = (String.length s + String.length t)%nat.
Proof. induction s as [|c s IH]; simpl; [reflexivity | f_equal; exact IH]. Qed.

Lemma substring_app s t : String.substring 0 (String.length s) (s ++ t) = s.
Proof.
  induction s as [|c s IH]; simpl.
  - destruct t; reflexivity.
  - f_equal. exact IH.
Qed.

Lemma rfind_dot_app s t i :
  rfind_dot t = Some i -> rfind_dot (s ++ t) = Some (String.length s + i)%nat.
Proof.
  intros Ht. induction s as [|c s IH]; simpl; [exact Ht|].
  rewrite IH. reflexivity.
Qed.

Lemma rfind_dot_none e :
  all_chars (fun c => negb (Ascii.eqb c "."%char) && negb (Ascii.eqb c "/"%char)) e = true ->
  rfind_dot e = None.
Proof.
  induction e as [|c e IH]; simpl; [reflexivity|].
  intros H. apply andb_true_iff in H as [Hc He].
  apply andb_true_iff in Hc as [Hc _]. apply negb_true_iff in Hc.
  rewrite (IH He), Hc. reflexivity.
Qed.

Lemma plain_extension_facts ext :
  plain_extension ext = true ->
  rfind_dot ext = Some 0%nat /\ no_sep ext = true /\ (2 <= String.length ext)%nat.
Proof.
  destruct ext as [|c e]; simpl; [discriminate|].
  intros H. apply andb_true_iff in H as [H He].
  apply andb_true_iff in H as [Hc Hn].
  rewrite (rfind_dot_none e He), Hc. split; [reflexivity|]. split.
  - unfold no_sep. simpl. apply Ascii.eqb_eq in Hc. subst c. simpl.
    clear Hn. induction e as [|d e IH]; simpl in *; [reflexivity|].
    apply andb_true_iff in He as [Hd He].
    apply andb_true_iff in Hd as [_ Hd]. rewrite Hd. simpl. apply IH, He.
  - destruct e; [discriminate | simpl; lia].
Qed.

(** The stem of a plain file name [s ++ ext] is [s]. *)
Lemma stem_of_plain_name s ext :
  plain_extension ext = true -> no_sep s = true -> is_empty s = false ->
  stem (s ++ ext) = s.
Proof.
  intros He Hs Hn. destruct (plain_extension_facts ext He) as (Hd & Hx & Hl).
  unfold stem, name_of. rewrite (split_sep_no_sep _ (no_sep_app s ext Hs Hx)).
  assert (Hne : negb (is_empty (s ++ ext) || String.eqb (s ++ ext) ".") = true).
  { destruct s as [|c s]; [discriminate|]. simpl.
    destruct (Ascii.eqb c "."%char); [|reflexivity].
    destruct s; simpl; [|reflexivity].
    destruct ext; [simpl in Hl; lia | reflexivity]. }
  simpl. rewrite Hne. simpl.
  unfold stem_of_name. rewrite (rfind_dot_app s ext 0 Hd), length_app, Nat.add_0_r.
  assert (H0 : (0 <? String.length s)%nat = true).
  { apply Nat.ltb_lt. destruct s; [discriminate | simpl; lia]. }
  assert (H1 : (String.length s <? String.length s + String.length ext - 1)%nat = true).
  { apply Nat.ltb_lt. lia. }
  rewrite H0, H1. simpl. apply substring_app.
Qed.

(** Digits and the extension do not count: two plain file names whose stems
    are equal once their digits are removed select the same stylesheet, in
    both scripts. *)
Theorem matching_ignores_digits (s s' ext ext' : string) (xs : list string)
    (st : state) :
  plain_extension ext = true -> plain_extension ext' = true ->
  no_sep s = true -> no_sep s' = true ->
  is_empty s = false -> is_empty s' = false ->
  re_sub_digits s = re_sub_digits s' ->
  XSLTTransform.find_matching_xslt (s ++ ext) xs
  = XSLTTransform.find_matching_xslt (s' ++ ext') xs
  /\ snd (Scraper.find_matching_xslt (s ++ ext) xs st)
     = snd (Scraper.find_matching_xslt (s' ++ ext') xs st).
Proof.
  intros He He' Hs Hs' Hn Hn' Hd.
  assert (Hk : XSLTTransform.prefix_clean (s ++ ext)
               = XSLTTransform.prefix_clean (s' ++ ext')).
  { unfold XSLTTransform.prefix_clean.
    rewrite (stem_of_plain_name s ext He Hs Hn),
      (stem_of_plain_name s' ext' He' Hs' Hn'), Hd. reflexivity. }
  split.
  - unfold XSLTTransform.find_matching_xslt. rewrite Hk. reflexivity.
  - rewrite !scraper_value.
    change (Scraper.prefix_clean (s ++ ext))
      with (XSLTTransform.prefix_clean (s ++ ext)).
    change (Scraper.prefix_clean (s' ++ ext'))
      with (XSLTTransform.prefix_clean (s' ++ ext')).
    rewrite Hk. reflexivity.
Qed.

Lemma matching_ignores_digits_witness :
  XSLTTransform.find_matching_xslt "2024OrderStatus07.xml" ["OrderStatus.xslt"]
  = XSLTTransform.find_matching_xslt "OrderStatus.XML" ["OrderStatus.xslt"].
Proof.
  apply (matching_ignores_digits "2024OrderStatus07" "OrderStatus" ".xml" ".XML"
           ["OrderStatus.xslt"] initial_state); reflexivity.
Defined.

(** XSLTTransform.py matches no file whose key lacks STATUS: whatever the
    stylesheets are, such a file gets [None]. *)
Theorem key_without_status_is_unmatched (xml_filename : string)
    (xslt_files : list string) :
  str_in "STATUS" (XSLTTransform.prefix_clean xml_filename) = false ->
  XSLTTransform.find_matching_xslt xml_filename xslt_files = None.
Proof.
  intros H. apply guarded_loop_needs_status.
  unfold XSLTTransform.prefix_clean in *. rewrite upper_idem. exact H.
Qed.

Lemma key_without_status_is_unmatched_witness :
  XSLTTransform.find_matching_xslt "Invoice1.xml"
    ["Invoice.xslt"; "InvoiceStatus.xslt"; "Status.xsl"] = None.
Proof.
  apply key_without_status_is_unmatched. reflexivity.
Defined.

Lemma endswith_nonempty f suffix :
  is_empty suffix = false -> endswith f suffix = true -> is_empty f = false.
Proof.
  intros Hs H. destruct f; [|reflexivity].
  destruct suffix; [discriminate|]. discriminate H.
Qed.

Lemma loaded_names_nonempty listing x :
  In x (XSLTTransform.load_xslt_files listing) -> is_empty x = false.
Proof.
  unfold XSLTTransform.load_xslt_files. rewrite filter_In. intros [_ H].
  apply orb_true_iff in H as [H|H];
    eapply endswith_nonempty; try exact H; reflexivity.
Qed.

Lemma selected_in_list test xs x : selects test xs (Some x) -> In x xs.
Proof.
  intros (before & after & -> & _). apply in_or_app. right. left. reflexivity.
Qed.

(** On the stylesheets [load_xslt_files] returns, the walker's test
    [not matching_xslt] holds exactly when the matcher returned [None]: a
    listed stylesheet never has the empty name.  What the matcher returns is
    one of the listed names, unchanged. *)
Theorem falsy_match_is_none (xml_filename : string) (listing : list string) :
  let xslt_files := XSLTTransform.load_xslt_files listing in
  let guarded := XSLTTransform.find_matching_xslt xml_filename xslt_files in
  let unguarded :=
    Scraper.matching_xslt (Scraper.prefix_clean xml_filename)
      (Scraper.load_xslt_files listing) in
  (truthy guarded = false <-> guarded = None)
  /\ (truthy unguarded = false <-> unguarded = None)
  /\ (forall x, guarded = Some x \/ unguarded = Some x ->
        In x listing /\ (endswith x ".xsl" || endswith x ".xslt") = true).
Proof.
  intros xslt_files guarded unguarded.
  assert (Hg : forall x, guarded = Some x -> In x xslt_files).
  { intros x E.
    pose proof (guarded_loop_selects (XSLTTransform.prefix_clean xml_filename)
                  xslt_files) as H.
    unfold guarded, XSLTTransform.find_matching_xslt in E. rewrite E in H.
    eapply selected_in_list, H. }
  assert (Hu : forall x, unguarded = Some x -> In x xslt_files).
  { intros x E.
    pose proof (unguarded_selects (Scraper.prefix_clean xml_filename)
                  xslt_files) as H.
    unfold unguarded in E.
    change (Scraper.load_xslt_files listing) with xslt_files in E.
    rewrite E in H. eapply selected_in_list, H. }
  split; [|split].
  - split; [|intros ->; reflexivity].
    destruct guarded as [x|] eqn:E; [|reflexivity].
    simpl. rewrite (loaded_names_nonempty listing x (Hg x eq_refl)). discriminate.
  - split; [|intros ->; reflexivity].
    destruct unguarded as [x|] eqn:E; [|reflexivity].
    simpl. rewrite (loaded_names_nonempty listing x (Hu x eq_refl)). discriminate.
  - intros x [E|E]; [apply Hg in E | apply Hu in E];
      apply filter_In in E; exact E.
Qed.

End MatcherFacts.

(** ** The steps of the per-file pipeline *)

Module PipelineFacts.

Import Py Pathlib Runtime XSLTTransform.
Local Open Scope py_scope.

(** [format_with_xmllint], for every behaviour of its two commands.  When
    [xmllint --format] exits with a non-zero code, [mv] is not run and the
    transformed file stays as it is; the same handler serves a non-zero exit
    of [mv].  The handler decodes the standard error of the failed command:
    if it is UTF-8 the failure is logged and the function returns, if not the
    [UnicodeDecodeError] is raised out of the function and nothing is logged.
    A command that cannot be started raises [OSError] out of the function.
    The trackers and the written files are never touched. *)
Theorem format_outcomes (w : world) (file_path : Path) (st : state) :
  let temp_path := joinpath (parent file_path) "temp.xml" in
  let format_cmd := Spawn (XmllintFormat file_path temp_path) in
  let move_cmd := Spawn (Mv temp_path file_path) in
  let failed err :=
    ("xmllint formatting failed for " ++ str file_path ++ ": " ++ strip_text err)%string in
  let '(st', r) := format_with_xmllint w file_path st in
  let handled err :=
    match utf8_error 0 err with
    | None => r = Ok tt /\ error_log st' = (error_log st ++ [failed err])%list
    | Some (start, stop, reason) =>
        r = Raise (UnicodeDecodeError err start stop reason)
        /\ error_log st' = error_log st
    end in
  validation_errors st' = validation_errors st
  /\ unmatched_files st' = unmatched_files st
  /\ written st' = written st
  /\ match spawn w (history st) (XmllintFormat file_path temp_path) with
     | NotStarted msg =>
         r = Raise (OSError msg)
         /\ history st' = (history st ++ [format_cmd])%list
         /\ error_log st' = error_log st
     | Exited _ rc _ err =>
         if (rc =? 0)%Z then
           history st' = (history st ++ [format_cmd; move_cmd])%list
           /\ match spawn w (history st ++ [format_cmd])%list (Mv temp_path file_path) with
              | NotStarted msg => r = Raise (OSError msg) /\ error_log st' = error_log st
              | Exited _ rc' _ err' =>
                  if (rc' =? 0)%Z then r = Ok tt /\ error_log st' = error_log st
                  else handled err'
              end
         else history st' = (history st ++ [format_cmd])%list /\ handled err
     end.
Proof.
  unfold format_with_xmllint, try_except, subprocess_run, decode, bind, gets,
    record_action, modify, print, logging_error; simpl.
  destruct (spawn w (history st) _) as [msg | e1 rc1 o1 r1]; simpl.
  { repeat split; reflexivity. }
  destruct (rc1 =? 0)%Z; simpl.
  - destruct (spawn w (history st ++ _)%list _) as [msg | e2 rc2 o2 r2]; simpl.
    { rewrite <- app_assoc. repeat split; reflexivity. }
    destruct (rc2 =? 0)%Z; simpl; [rewrite <- app_assoc; repeat split; reflexivity|].
    destruct (utf8_error 0 r2) as [[[? ?] ?]|]; simpl; rewrite <- app_assoc; repeat split; reflexivity.
  - destruct (utf8_error 0 r1) as [[[? ?] ?]|]; simpl; repeat split; reflexivity.
Qed.

(** A transform that exits with a non-zero code within its time limit stops
    the pipeline of its file: the only command run is the transform, neither
    the formatter nor the validator is started, and no validation error or
    unmatched entry is recorded.  If the standard error of the transform is
    UTF-8, one record is logged and [process_file] returns [False]; if it is
    not, the [UnicodeDecodeError] is raised out of [process_file] and nothing
    is logged. *)
Theorem failed_transform_stops_pipeline (w : world)
    (input output xslt : Path) (schema : option Path) (st : state)
    (elapsed : nat) (rc : Z) (out err : bytes) :
  spawn w (history st) (Saxon SAXON_JAR input xslt output) = Exited elapsed rc out err ->
  (elapsed <= 30)%nat ->
  rc <> 0%Z ->
  let '(st', r) := process_file w input output xslt schema st in
  history st' = (history st ++ [Spawn (Saxon SAXON_JAR input xslt output)])%list
  /\ validation_errors st' = validation_errors st
  /\ unmatched_files st' = unmatched_files st
  /\ match utf8_error 0 err with
     | None =>
         r = Ok false
         /\ error_log st'
            = (error_log st ++ [(str input ++ " - " ++ strip_text err)%string])%list
     | Some (start, stop, reason) =>
         r = Raise (UnicodeDecodeError err start stop reason)
         /\ error_log st' = error_log st
     end.
Proof.
  intros E Ht Hrc.
  unfold process_file, try_except, subprocess_run, decode, bind, gets,
    record_action, modify; simpl.
  rewrite E.
  assert (Hlt : (30 <? elapsed)%nat = false) by (apply Nat.ltb_ge; exact Ht).
  rewrite Hlt. simpl.
  assert (Hz : (rc =? 0)%Z = false) by (apply Z.eqb_neq; exact Hrc).
  rewrite Hz. simpl.
  destruct (utf8_error 0 err) as [[[? ?] ?]|]; simpl; repeat split; reflexivity.
Qed.

(** The transform exits with code 1 and a standard error that is not
    UTF-8. *)
Definition garbled_world : world :=
  {| spawn := fun _ c =>
       match c with
       | Saxon _ _ _ _ => Exited 0 1 EmptyString PipelineSpec.not_utf8
       | _ => Exited 0 0 EmptyString EmptyString
       end;
     syscall := fun _ _ => None;
     os_listdir := fun _ => inl ["OrderStatus.xslt"];
     os_walk := fun _ => PipelineSpec.two_orders |}.

Lemma failed_transform_stops_pipeline_witness :
  snd (process_file PipelineSpec.failing_world ["/"; "data"; "in"; "OrderStatus1.xml"]
         ["/"; "data"; "Modified"; "OrderStatus1.xml"]
         ["/"; "data"; "xslt"; "OrderStatus.xslt"]
         (Some ["/"; "data"; "Order.xsd"]) initial_state)
  = Ok false
  /\ snd (process_file garbled_world ["/"; "data"; "in"; "OrderStatus1.xml"]
            ["/"; "data"; "Modified"; "OrderStatus1.xml"]
            ["/"; "data"; "xslt"; "OrderStatus.xslt"]
            (Some ["/"; "data"; "Order.xsd"]) initial_state)
     = Raise (UnicodeDecodeError PipelineSpec.not_utf8 0 1 "invalid start byte").
Proof.
  split.
  - pose proof (failed_transform_stops_pipeline PipelineSpec.failing_world
                  ["/"; "data"; "in"; "OrderStatus1.xml"]
                  ["/"; "data"; "Modified"; "OrderStatus1.xml"]
                  ["/"; "data"; "xslt"; "OrderStatus.xslt"]
                  (Some ["/"; "data"; "Order.xsd"]) initial_state
                  0%nat 1%Z EmptyString "XTSE0010: bad stylesheet" eq_refl) as H.
    destruct (process_file _ _ _ _ _ _) as [st' r].
    destruct H as (_ & _ & _ & H); [lia | discriminate|].
    exact (proj1 H).
  - pose proof (failed_transform_stops_pipeline garbled_world
                  ["/"; "data"; "in"; "OrderStatus1.xml"]
                  ["/"; "data"; "Modified"; "OrderStatus1.xml"]
                  ["/"; "data"; "xslt"; "OrderStatus.xslt"]
                  (Some ["/"; "data"; "Order.xsd"]) initial_state
                  0%nat 1%Z EmptyString PipelineSpec.not_utf8 eq_refl) as H.
    destruct (process_file _ _ _ _ _ _) as [st' r].
    destruct H as (_ & _ & _ & H); [lia | discriminate|].
    exact (proj1 H).
Defined.

Lemma dict_get_set_other key key' value d :
  key' <> key -> dict_get key' (dict_set key value d) = dict_get key' d.
Proof.
  intros Hne. induction d as [|[k v] d IH]; simpl.
  - destruct (String.eqb key key') eqn:E; [|reflexivity].
    apply String.eqb_eq in E. congruence.
  - destruct (String.eqb k key) eqn:E; simpl.
    + apply String.eqb_eq in E. subst k.
      destruct (String.eqb key key') eqn:E'; [|reflexivity].
      apply String.eqb_eq in E'. congruence.
    + rewrite IH. reflexivity.
Qed.

Lemma dict_set_keys key value d k :
  In k (List.map fst (dict_set key value d)) <-> k = key \/ In k (List.map fst d).
Proof.
  induction d as [|[k0 v0] d IH]; simpl.
  - intuition.
  - destruct (String.eqb k0 key) eqn:E; simpl.
    + apply String.eqb_eq in E. subst k0. intuition.
    + rewrite IH. intuition.
Qed.

Lemma dict_set_NoDup key value d :
  NoDup (List.map fst d) -> NoDup (List.map fst (dict_set key value d)).
Proof.
  induction d as [|[k0 v0] d IH]; simpl; intros H.
  - constructor; [intros [] | constructor].
  - inversion H as [|? ? Hk Hd]; subst.
    destruct (String.eqb k0 key) eqn:E; simpl.
    + constructor; assumption.
    + constructor; [|apply IH, Hd].
      rewrite dict_set_keys. intros [->|Hin]; [|exact (Hk Hin)].
      rewrite String.eqb_refl in E. discriminate.
Qed.

(** Validating one file leaves the entries of all other files as they were
    and keeps one entry per file: a new failure of a file that already has an
    entry replaces its message.  Exactly one command is run, and the list of
    unmatched files, the log and the written files are not touched. *)
Theorem validation_touches_one_entry (w : world) (file_path schema_path : Path)
    (st : state) (other : string) :
  other <> str file_path ->
  NoDup (List.map fst (validation_errors st)) ->
  let st' := fst (validate_xml_schema w file_path schema_path st) in
  dict_get other (validation_errors st') = dict_get other (validation_errors st)
  /\ NoDup (List.map fst (validation_errors st'))
  /\ history st' = (history st ++ [Spawn (XmllintSchema schema_path file_path)])%list
  /\ unmatched_files st' = unmatched_files st
  /\ error_log st' = error_log st
  /\ written st' = written st.
Proof.
  intros Hne Hnd.
  unfold validate_xml_schema, try_except, subprocess_run, decode, bind, gets,
    record_action, modify, print, set_validation_error; simpl.
  destruct (spawn w (history st) _) as [msg | e rc out err]; simpl;
    [| destruct (utf8_error 0 out) as [[[? ?] ?]|]; simpl;
       [| destruct (utf8_error 0 err) as [[[? ?] ?]|]; simpl;
          [| destruct (rc =? 0)%Z; simpl;
             [repeat split; try reflexivity; exact Hnd|] ] ] ];
    (split; [apply dict_get_set_other, Hne|]);
    (split; [apply dict_set_NoDup, Hnd|]); repeat split; reflexivity.
Qed.

Lemma validation_touches_one_entry_witness :
  dict_get "/out/a.xml"
    (validation_errors
       (fst (validate_xml_schema PipelineSpec.no_xmllint_world ["/"; "out"; "b.xml"]
               ["/"; "s.xsd"]
               {| validation_errors := [("/out/a.xml", "element x: not expected")];
                  unmatched_files := []; error_log := []; console := [];
                  history := []; written := [] |})))
  = Some "element x: not expected".
Proof.
  refine (proj1 (validation_touches_one_entry PipelineSpec.no_xmllint_world
                   ["/"; "out"; "b.xml"] ["/"; "s.xsd"]
                   {| validation_errors := [("/out/a.xml", "element x: not expected")];
                      unmatched_files := []; error_log := []; console := [];
                      history := []; written := [] |}
                   "/out/a.xml" _ _)).
  - vm_compute. discriminate.
  - simpl. constructor; [intros [] | constructor].
Defined.

(** The transform succeeds, the formatter and the validator both fail. *)
Definition fussy_world : world :=
  {| spawn := fun _ c =>
       match c with
       | Saxon _ _ _ _ => Exited 2 0 EmptyString EmptyString
       | XmllintFormat _ _ => Exited 0 1 EmptyString "parser error"
       | Mv _ _ => Exited 0 0 EmptyString EmptyString
       | XmllintSchema _ _ => Exited 0 3 EmptyString "fails to validate"
       end;
     syscall := fun _ _ => None;
     os_listdir := fun _ => inl ["OrderStatus.xslt"];
     os_walk := fun _ => PipelineSpec.two_orders |}.



End PipelineFacts.

(** ** Output paths, and the pipeline of the variant script *)

Module OutputPathFacts.

Import Py Pathlib Runtime.
Local Open Scope py_scope.

Lemma relative_to_base (base rel : Path) :
  XSLTTransform.relative_to (base ++ rel)%list base = Some rel.
Proof.
  induction base as [|b base IH]; simpl; [reflexivity|].
  rewrite String.eqb_refl. exact IH.
Qed.

Lemma parent_below (base : Path) (name : string) (rel : Path) :
  rel <> [] ->
  parent (base ++ name :: rel)%list = (base ++ name :: removelast rel)%list.
Proof.
  intros Hrel. unfold parent.
  assert (E : removelast (base ++ name :: rel)%list
              = (base ++ name :: removelast rel)%list).
  { rewrite removelast_app by discriminate. simpl.
    destruct rel; [contradiction | reflexivity]. }
  destruct (base ++ name :: rel)%list as [|a [|b l]] eqn:El; try exact E.
  all: exfalso; destruct base as [|b0 base]; simpl in El;
    [ injection El as _ El; subst rel; contradiction
    | destruct base; discriminate ].
Qed.

Lemma in_parts_middle (base : Path) (name : string) (rest : Path) :
  XSLTTransform.in_parts name (base ++ name :: rest)%list = true.
Proof.
  unfold XSLTTransform.in_parts. rewrite existsb_app. simpl.
  rewrite String.eqb_refl. apply orb_true_r.
Qed.

Lemma root_of_no_sep name :
  MatcherFacts.no_sep name = true -> root_of name = None.
Proof.
  destruct name as [|c s]; [reflexivity|].
  unfold MatcherFacts.no_sep. simpl. intros H.
  apply andb_true_iff in H as [Hc _]. apply negb_true_iff in Hc.
  destruct c as [[] [] [] [] [] [] [] []]; try discriminate Hc; reflexivity.
Qed.

(** For a plain folder or file name, [p / name] has one part more. *)
Lemma joinpath_plain (p : Path) (name : string) :
  plain_name name = true -> joinpath p name = (p ++ [name])%list.
Proof.
  unfold plain_name. intros H. apply andb_true_iff in H as [Hn Hs].
  unfold joinpath, components.
  rewrite (root_of_no_sep name Hs), (MatcherFacts.split_sep_no_sep name Hs).
  simpl. rewrite Hn. reflexivity.
Qed.

(** [ensure_output_path] of XSLTTransform.py, for every input.  The output
    path is the input's path relative to the root, placed under
    [root_dir.parent / modified_folder_name]; its directory is created before
    the function returns, a failed [mkdir] raises and a failed [chmod] does
    not.  When the folder name is one plain path component, the directory of
    every output below the output folder has that name among its parts, so
    the walker skips it. *)
Theorem output_path_outcomes (w : world) (input_file_path root_dir : Path)
    (modified_folder_name : string) (st : state) :
  let modified_base := joinpath (parent root_dir) modified_folder_name in
  let '(st', r) :=
    XSLTTransform.ensure_output_path w input_file_path root_dir
      modified_folder_name st in
  match XSLTTransform.relative_to input_file_path root_dir with
  | None => (exists msg, r = Raise (ValueError msg)) /\ history st' = history st
  | Some relative_path =>
      let output := (modified_base ++ relative_path)%list in
      XSLTTransform.relative_to output modified_base = Some relative_path
      /\ (plain_name modified_folder_name = true ->
          relative_path <> [] ->
          XSLTTransform.in_parts modified_folder_name (parent output) = true)
      /\ match syscall w (history st) (Mkdir (parent output)) with
         | Some msg =>
             r = Raise (OSError msg)
             /\ history st' = (history st ++ [Sys (Mkdir (parent output))])%list
         | None =>
             r = Ok output
             /\ history st'
                = (history st ++ [Sys (Mkdir (parent output));
                                  Sys (Chmod (parent output) 493)])%list
         end
  end.
Proof.
  unfold XSLTTransform.ensure_output_path.
  destruct (XSLTTransform.relative_to input_file_path root_dir) as [rel|]; simpl.
  2: { split; [eexists; reflexivity | reflexivity]. }
  assert (Hskip : plain_name modified_folder_name = true -> rel <> [] ->
            XSLTTransform.in_parts modified_folder_name
              (parent (joinpath (parent root_dir) modified_folder_name ++ rel)%list)
            = true).
  { intros Hplain Hrel. rewrite (joinpath_plain _ _ Hplain), <- app_assoc. simpl.
    rewrite (parent_below _ _ _ Hrel). apply in_parts_middle. }
  unfold try_except, sys, bind, gets, record_action, modify, print; simpl.
  destruct (syscall w (history st) _) as [msg|] eqn:E1; simpl.
  - split; [apply relative_to_base|]. split; [exact Hskip | split; reflexivity].
  - destruct (syscall w (history st ++ _)%list _); simpl;
      (split; [apply relative_to_base|]);
      (split; [exact Hskip | rewrite <- app_assoc; split; reflexivity]).
Qed.

(** [ensure_output_path] of the variant: the output folder is
    [root_dir / modified_folder_name], nested in the root.  When the folder
    name is one plain path component, every output path below it lies in a
    directory the variant's own walker skips. *)
Theorem nested_output_path_outcomes (w : world) (input_file_path root_dir : Path)
    (modified_folder_name : string) (st : state) :
  let modified_base := joinpath root_dir modified_folder_name in
  let '(st', r) :=
    Scraper.ensure_output_path w input_file_path root_dir modified_folder_name st in
  match Scraper.relative_to input_file_path root_dir with
  | None => (exists msg, r = Raise (ValueError msg)) /\ history st' = history st
  | Some relative_path =>
      let output := (modified_base ++ relative_path)%list in
      Scraper.relative_to output modified_base = Some relative_path
      /\ (plain_name modified_folder_name = true ->
          Scraper.relative_to output root_dir
          = Some (modified_folder_name :: relative_path)
          /\ (relative_path <> [] ->
              Scraper.in_parts modified_folder_name (parent output) = true))
      /\ history st' = (history st ++ [Sys (Mkdir (parent output))])%list
      /\ r = match syscall w (history st) (Mkdir (parent output)) with
             | Some msg => Raise (OSError msg)
             | None => Ok output
             end
  end.
Proof.
  unfold Scraper.ensure_output_path.
  destruct (Scraper.relative_to input_file_path root_dir) as [rel|]; simpl.
  2: { split; [eexists; reflexivity | reflexivity]. }
  assert (Hplain : plain_name modified_folder_name = true ->
            Scraper.relative_to (joinpath root_dir modified_folder_name ++ rel)%list
              root_dir
            = Some (modified_folder_name :: rel)
            /\ (rel <> [] ->
                Scraper.in_parts modified_folder_name
                  (parent (joinpath root_dir modified_folder_name ++ rel)%list)
                = true)).
  { intros Hplain. rewrite (joinpath_plain _ _ Hplain), <- app_assoc. simpl. split.
    - apply (relative_to_base root_dir (modified_folder_name :: rel)).
    - intros Hrel. rewrite (parent_below _ _ _ Hrel).
      apply (in_parts_middle root_dir modified_folder_name (removelast rel)). }
  unfold sys, bind, gets, record_action, modify; simpl.
  destruct (syscall w (history st) _); simpl;
    (split; [apply (relative_to_base (joinpath root_dir modified_folder_name) rel)|]);
    (split; [exact Hplain | split; reflexivity]).
Qed.



End OutputPathFacts.

(** ** What a run of XSLTTransform.py does to its environment *)

Module RunAudit.

Import Py Pathlib Runtime RunLogic XSLTTransform.
Local Open Scope py_scope.

(** The history, the unmatched list and the log only grow, by actions that
    satisfy [P], entries that satisfy [Q] and records that satisfy [L]. *)
Definition audited (P : action -> Prop) (Q L : string -> Prop) (st st' : state)
  : Prop :=
  extends P Q st st'
  /\ exists ls, error_log st' = (error_log st ++ ls)%list /\ Forall L ls.

Lemma audited_refl P Q L st : audited P Q L st st.
Proof.
  split; [apply extends_refl|]. exists []. rewrite app_nil_r. auto.
Qed.

Lemma audited_trans P Q L a b c :
  audited P Q L a b -> audited P Q L b c -> audited P Q L a c.
Proof.
  intros [E1 (l1 & G1 & K1)] [E2 (l2 & G2 & K2)].
  split; [eapply extends_trans; eassumption|].
  exists (l1 ++ l2)%list. rewrite G2, G1, app_assoc. split; [reflexivity|].
  apply Forall_app; auto.
Qed.

Lemma audited_same P Q L st st' :
  history st' = history st -> unmatched_files st' = unmatched_files st ->
  error_log st' = error_log st -> audited P Q L st st'.
Proof.
  intros H U E. split; [apply extends_same; assumption|].
  exists []. rewrite app_nil_r. auto.
Qed.

Section Audited.

Variable P : action -> Prop.
Variables Q L : string -> Prop.

Local Abbreviation au := (respects (audited P Q L)).

Lemma au_ret {A} (a : A) : au (ret a).
Proof. apply respects_ret, audited_refl. Qed.

Lemma au_raise {A} (e : exn) : au (@raise A e).
Proof. apply respects_raise, audited_refl. Qed.

Lemma au_gets {A} (f : state -> A) : au (gets f).
Proof. apply respects_gets, audited_refl. Qed.

Lemma au_bind {A B} (c : M A) (k : A -> M B) :
  au c -> (forall a, au (k a)) -> au (bind c k).
Proof. apply respects_bind, audited_trans. Qed.

Lemma au_bind_val {A B} (V : A -> Prop) (c : M A) (k : A -> M B) :
  au c ->
  (forall st st' a, c st = (st', Ok a) -> V a) ->
  (forall a, V a -> au (k a)) ->
  au (bind c k).
Proof. apply respects_bind_val, audited_trans. Qed.

Lemma au_try {A} (c : M A) (handler : exn -> option (M A)) :
  au c -> (forall e h, handler e = Some h -> au h) -> au (try_except c handler).
Proof. apply respects_try_except, audited_trans. Qed.

Lemma au_for_each {A} (xs : list A) (body : A -> M unit) :
  (forall x, In x xs -> au (body x)) -> au (for_each xs body).
Proof. apply respects_for_each; [apply audited_refl | apply audited_trans]. Qed.

Lemma au_print msg : au (print msg).
Proof. intros st. apply audited_same; reflexivity. Qed.

Lemma au_decode b : au (decode b).
Proof.
  unfold decode. destruct (utf8_error 0 b) as [[[? ?] ?]|]; [apply au_raise | apply au_ret].
Qed.

Lemma au_set_validation_error key value : au (set_validation_error key value).
Proof. intros st. apply audited_same; reflexivity. Qed.

Lemma au_logging_error msg : L msg -> au (logging_error msg).
Proof.
  intros Hm st. split; [apply extends_same; reflexivity|].
  exists [msg]. split; [reflexivity | constructor; auto].
Qed.

Lemma au_append_unmatched u : Q u -> au (append_unmatched u).
Proof.
  intros Hu st. split.
  - split; simpl.
    + exists []. rewrite app_nil_r. auto.
    + exists [u]. split; [reflexivity | constructor; auto].
  - exists []. simpl. rewrite app_nil_r. auto.
Qed.

Lemma au_record_action a : P a -> au (record_action a).
Proof.
  intros Ha st. split.
  - split; simpl.
    + exists [a]. split; [reflexivity | constructor; auto].
    + exists []. rewrite app_nil_r. auto.
  - exists []. simpl. rewrite app_nil_r. auto.
Qed.

Lemma au_subprocess_run w c check timeout :
  P (Spawn c) -> au (subprocess_run w c check timeout).
Proof.
  intros Hc. unfold subprocess_run.
  apply au_bind; [apply au_gets | intros h].
  apply au_bind; [apply au_record_action, Hc | intros _].
  destruct (spawn w h c) as [msg | elapsed rc out err]; [apply au_raise|].
  apply au_bind.
  - destruct timeout as [t|]; [|apply au_ret].
    destruct (t <? elapsed)%nat; [apply au_raise | apply au_ret].
  - intros _. destruct (check && negb (rc =? 0)%Z); [apply au_raise | apply au_ret].
Qed.

Lemma au_sys w op : P (Sys op) -> au (sys w op).
Proof.
  intros Hop. unfold sys.
  apply au_bind; [apply au_gets | intros h].
  apply au_bind; [apply au_record_action, Hop | intros _].
  destruct (syscall w h op); [apply au_raise | apply au_ret].
Qed.

Lemma au_write_text w p content :
  P (Sys (WriteText p content)) -> au (write_text w p content).
Proof.
  intros Hp. unfold write_text.
  apply au_bind; [apply au_sys, Hp | intros _].
  intros st. apply audited_same; reflexivity.
Qed.

End Audited.

Section Audit.

Variable w : world.
Variables root_dir xslt_dir : Path.
Variable modified_folder_name : string.
Variable schema_path : option Path.
Variable script_dir : Path.

(** [o] is the output path of a visited file. *)
Definition is_output (o : Path) : Prop :=
  exists current_path file,
    WalkerSpec.visited w root_dir modified_folder_name current_path file
    /\ WalkerSpec.output_of root_dir modified_folder_name
         (joinpath current_path file) o.

(** The commands a run may start and the file system calls it may make. *)
Definition allowed (a : action) : Prop :=
  match a with
  | Spawn (Saxon jar s x o) =>
      jar = SAXON_JAR
      /\ exists current_path file matched,
           WalkerSpec.visited w root_dir modified_folder_name current_path file
           /\ endswith (lower file) ".xml" = true
           /\ find_matching_xslt file (WalkerSpec.xslt_files_of w xslt_dir)
              = Some matched
           /\ s = joinpath current_path file
           /\ x = joinpath xslt_dir matched
           /\ WalkerSpec.output_of root_dir modified_folder_name s o
  | Spawn (XmllintFormat f t) =>
      is_output f /\ t = joinpath (parent f) "temp.xml"
  | Spawn (Mv s d) =>
      is_output d /\ s = joinpath (parent d) "temp.xml"
  | Spawn (XmllintSchema schema f) =>
      schema_path = Some schema /\ is_output f
  | Sys (Mkdir p) => exists o, is_output o /\ p = parent o
  | Sys (Chmod p mode) => mode = 493%N /\ exists o, is_output o /\ p = parent o
  | Sys (WriteText p _) =>
      p = joinpath script_dir "validation_report.txt"
      \/ p = joinpath script_dir "unmatched_files_report.txt"
  | Sys (PrettyPrint _) => False
  | Sys (OpenLog p) => p = joinpath [] LOG_FILE
  end.

(** The records a run may append to the log file. *)
Definition log_record (r : string) : Prop :=
  (exists current_path file,
     WalkerSpec.visited w root_dir modified_folder_name current_path file
     /\ r = ("No matching XSLT for " ++ file)%string)
  \/ (exists current_path file text,
        WalkerSpec.visited w root_dir modified_folder_name current_path file
        /\ r = (str (joinpath current_path file) ++ " - " ++ text)%string)
  \/ (exists o text,
        is_output o
        /\ r = ("xmllint formatting failed for " ++ str o ++ ": " ++ text)%string).

Local Abbreviation ok :=
  (respects
     (audited allowed
        (WalkerSpec.unmatched_of_visited w root_dir modified_folder_name)
        log_record)).

Lemma audit_format o : is_output o -> ok (format_with_xmllint w o).
Proof.
  intros Ho. unfold format_with_xmllint. apply au_try.
  - apply au_bind; [apply au_subprocess_run; split; [exact Ho | reflexivity] | intros _].
    apply au_bind; [apply au_subprocess_run; split; [exact Ho | reflexivity] | intros _].
    apply au_print.
  - intros e h. destruct e; intros [=<-].
    apply au_bind; [apply au_decode | intros shown].
    apply au_bind; [apply au_print | intros _].
    apply au_bind; [apply au_decode | intros logged].
    apply au_logging_error. right. right. exists o, (strip_text logged). auto.
Qed.

Lemma audit_validate o schema :
  is_output o -> schema_path = Some schema -> ok (validate_xml_schema w o schema).
Proof.
  intros Ho Hs. unfold validate_xml_schema. apply au_try.
  - apply au_bind; [apply au_subprocess_run; split; assumption | intros result].
    apply au_bind; [apply au_decode | intros out].
    apply au_bind; [apply au_decode | intros err].
    destruct (returncode result =? 0)%Z; [apply au_print|].
    apply au_bind; [apply au_print | intros _; apply au_set_validation_error].
  - intros e h [=<-].
    apply au_bind; [apply au_print | intros _; apply au_set_validation_error].
Qed.

Lemma audit_process_file current_path file output xslt :
  WalkerSpec.visited w root_dir modified_folder_name current_path file ->
  allowed (Spawn (Saxon SAXON_JAR (joinpath current_path file) xslt output)) ->
  is_output output ->
  ok (process_file w (joinpath current_path file) output xslt schema_path).
Proof.
  intros Hv Ha Ho. unfold process_file. apply au_try.
  - apply au_bind; [apply au_subprocess_run, Ha | intros _].
    apply au_bind; [apply au_print | intros _].
    apply au_bind; [apply audit_format, Ho | intros _].
    apply au_bind; [|intros _; apply au_ret].
    destruct schema_path as [schema|] eqn:Es; [|apply au_ret].
    apply audit_validate; [exact Ho | exact Es].
  - intros e h. destruct e; intros [=<-].
    apply au_bind; [apply au_decode | intros decoded].
    apply au_bind; [apply au_print | intros _].
    apply au_bind; [|intros _; apply au_ret].
    apply au_logging_error. right. left.
    exists current_path, file, (strip_text decoded). auto.
Qed.

Lemma audit_ensure_output_path current_path file :
  WalkerSpec.visited w root_dir modified_folder_name current_path file ->
  ok (ensure_output_path w (joinpath current_path file) root_dir
        modified_folder_name).
Proof.
  intros Hv. unfold ensure_output_path.
  destruct (relative_to (joinpath current_path file) root_dir) as [rel|] eqn:Er;
    [|apply au_raise].
  assert (Ho : is_output (joinpath (parent root_dir) modified_folder_name ++ rel)%list).
  { exists current_path, file. split; [exact Hv|]. exists rel. auto. }
  apply au_bind; [apply au_sys; eexists; split; [exact Ho | reflexivity] | intros _].
  apply au_bind; [|intros _; apply au_ret].
  apply au_try.
  - apply au_sys. split; [reflexivity|]. eexists. split; [exact Ho | reflexivity].
  - intros e h [=<-]. apply au_print.
Qed.

Lemma audit_unmatched current_path file :
  WalkerSpec.visited w root_dir modified_folder_name current_path file ->
  ok (print (" No matching XSLT for: " ++ file) ;;
      logging_error ("No matching XSLT for " ++ file) ;;
      append_unmatched (str (joinpath current_path file))).
Proof.
  intros Hv.
  apply au_bind; [apply au_print | intros _].
  apply au_bind; [apply au_logging_error; left; exists current_path, file; auto|].
  intros _. apply au_append_unmatched. exists current_path, file. auto.
Qed.

Lemma audit_visit_file current_path file :
  WalkerSpec.visited w root_dir modified_folder_name current_path file ->
  ok (visit_file w root_dir xslt_dir modified_folder_name schema_path
        (WalkerSpec.xslt_files_of w xslt_dir) current_path file).
Proof.
  intros Hv. unfold visit_file.
  destruct (endswith (lower file) ".xml") eqn:Ex; [|apply au_ret].
  destruct (find_matching_xslt file (WalkerSpec.xslt_files_of w xslt_dir))
    as [matched|] eqn:Em; simpl; [|apply audit_unmatched, Hv].
  destruct (negb (negb (is_empty matched))); simpl; [apply audit_unmatched, Hv|].
  apply (au_bind_val _ _ _
           (WalkerSpec.output_of root_dir modified_folder_name
              (joinpath current_path file))).
  - apply audit_ensure_output_path, Hv.
  - intros st st' o. apply WalkerSpec.ensure_output_path_value.
  - intros o Ho. apply au_bind.
    + apply audit_process_file; [exact Hv | |].
      * split; [reflexivity|]. exists current_path, file, matched. auto 10.
      * exists current_path, file. auto.
    + intros success. destruct (negb success); [apply au_print | apply au_ret].
Qed.

Lemma audit_visit_dir entry :
  In entry (os_walk w root_dir) ->
  ok (visit_dir w root_dir xslt_dir modified_folder_name schema_path
        (WalkerSpec.xslt_files_of w xslt_dir) entry).
Proof.
  destruct entry as [[current_path subdirs] files]. intros Hin. simpl.
  destruct (in_parts modified_folder_name current_path) eqn:Ep; [apply au_ret|].
  apply au_for_each. intros file Hf. apply audit_visit_file.
  split; [exact Ep|]. exists subdirs, files. auto.
Qed.

Lemma audit_traverse :
  ok (traverse_and_process w root_dir xslt_dir modified_folder_name schema_path).
Proof.
  unfold traverse_and_process.
  pose proof audit_visit_dir as H. unfold WalkerSpec.xslt_files_of in H.
  destruct (os_listdir w xslt_dir) as [listing|msg]; [|apply au_raise].
  apply au_for_each. exact H.
Qed.

Lemma audit_main :
  ok (main w root_dir xslt_dir schema_path modified_folder_name script_dir).
Proof.
  unfold main.
  apply au_bind; [apply audit_traverse | intros _].
  apply au_bind; [|intros _].
  - unfold write_validation_report_to_txt.
    apply au_bind; [apply au_gets | intros errors].
    destruct errors; [apply au_print|].
    apply au_bind; [apply au_write_text; left; reflexivity | intros _; apply au_print].
  - unfold write_unmatched_files_report.
    apply au_bind; [apply au_gets | intros files].
    destruct files; [apply au_print|].
    apply au_bind; [apply au_write_text; right; reflexivity | intros _; apply au_print].
Qed.

Lemma audit_script :
  ok (script w root_dir xslt_dir schema_path modified_folder_name script_dir).
Proof.
  unfold script, setup_logging.
  apply au_bind; [apply au_sys; reflexivity | intros _; apply audit_main].
Qed.

End Audit.

(** Every command, every file system call and every log record of the whole
    script is accounted for.  The log file is opened first.  A transform is
    run with the configured engine on an [.xml] file of a visited directory,
    with the stylesheet the matcher returned for that file, into the output
    path of that file.  The formatter and the validator work on output paths
    only, the validator only when a schema is configured and with that
    schema.  Directories are created for output paths only, and apart from
    the log the script itself writes nothing but its two reports.  A log
    record names a visited file without a stylesheet, a visited file whose
    transform failed, or an output path whose formatting failed. *)
Theorem run_actions_are_accounted (w : world) (root_dir xslt_dir : Path)
    (schema_path : option Path) (modified_folder_name : string)
    (script_dir : Path) :
  let st' :=
    fst (script w root_dir xslt_dir schema_path modified_folder_name script_dir
           initial_state) in
  (exists rest, history st' = Sys (OpenLog [LOG_FILE]) :: rest)
  /\ Forall (allowed w root_dir xslt_dir modified_folder_name schema_path script_dir)
       (history st')
  /\ Forall (log_record w root_dir modified_folder_name) (error_log st').
Proof.
  intros st'. split.
  - subst st'. unfold script, setup_logging, sys, bind, gets, record_action, modify.
    simpl. destruct (syscall w [] _) as [msg|]; simpl; [exists []; reflexivity|].
    match goal with |- context [main _ _ _ _ _ _ ?s] =>
      destruct (audit_main w root_dir xslt_dir modified_folder_name schema_path
                  script_dir s) as [[(hs & Eh & _) _] _]
    end.
    rewrite Eh. simpl. eexists. reflexivity.
  - destruct (audit_script w root_dir xslt_dir modified_folder_name schema_path
                script_dir initial_state) as [[(hs & Eh & Fh) _] (ls & El & Fl)].
    fold st' in Eh, El. simpl in Eh, El. rewrite Eh, El. split; assumption.
Qed.

End RunAudit.

(** ** Files that have a stylesheet *)

Module TransformFacts.

Import Py Pathlib Runtime RunLogic XSLTTransform.
Local Open Scope py_scope.

(** The history only grows. *)
Definition grows : state -> state -> Prop :=
  extends (fun _ => True) (fun _ => True).

Lemma grows_In st st' a : grows st st' -> In a (history st) -> In a (history st').
Proof.
  intros [(hs & -> & _) _] H. apply in_or_app. left. exact H.
Qed.

Lemma subprocess_run_history w c check timeout st :
  history (fst (subprocess_run w c check timeout st))
  = (history st ++ [Spawn c])%list.
Proof.
  unfold subprocess_run, bind, gets, record_action, modify; simpl.
  destruct (spawn w (history st) c) as [msg | elapsed rc out err]; simpl;
    [reflexivity|].
  destruct timeout as [t|]; simpl.
  - destruct (t <? elapsed)%nat; simpl; [reflexivity|].
    destruct (check && negb (rc =? 0)%Z); reflexivity.
  - destruct (check && negb (rc =? 0)%Z); reflexivity.
Qed.

Lemma grows_format w file_path : respects grows (format_with_xmllint w file_path).
Proof.
  unfold format_with_xmllint. apply ok_try_except; [repeat ok_step|].
  intros e h. destruct e; intros [=<-]. repeat ok_step.
Qed.

Lemma grows_validate w file_path schema :
  respects grows (validate_xml_schema w file_path schema).
Proof.
  unfold validate_xml_schema. apply ok_try_except.
  - ok_step; [ok_step|]. destruct (returncode a =? 0)%Z; repeat ok_step.
  - intros e h [=<-]. repeat ok_step.
Qed.

(** Whatever happens next, [process_file] starts the transform. *)
Lemma process_file_starts_transform w input output xslt schema st :
  In (Spawn (Saxon SAXON_JAR input xslt output))
    (history (fst (process_file w input output xslt schema st))).
Proof.
  unfold process_file, try_except. unfold bind at 1.
  pose proof (subprocess_run_history w (Saxon SAXON_JAR input xslt output)
                true (Some 30%nat) st) as Hh.
  destruct (subprocess_run w _ true (Some 30%nat) st) as [s1 [cp|e]]; simpl in Hh.
  - assert (Hk : respects grows
                   (print (" Transformed: " ++ name input ++ " → "
                           ++ str output) ;;
                    format_with_xmllint w output ;;
                    match schema with
                    | Some s => validate_xml_schema w output s
                    | None => ret tt
                    end ;;
                    ret true)).
    { ok_step; [ok_step|]. ok_step; [apply grows_format|].
      ok_step; [|ok_step]. destruct schema; [apply grows_validate | ok_step]. }
    specialize (Hk s1).
    destruct ((print _ ;; _) s1) as [s2 r2]. simpl in *.
    assert (H2 : In (Spawn (Saxon SAXON_JAR input xslt output)) (history s2)).
    { eapply grows_In; [exact Hk|]. rewrite Hh.
      apply in_or_app. right. left. reflexivity. }
    destruct r2 as [b|e]; [exact H2|].
    destruct e; unfold bind, decode, print, logging_error, modify, ret, raise;
      simpl; try exact H2.
    destruct (utf8_error 0 _) as [[[? ?] ?]|]; simpl; exact H2.
  - assert (H1 : In (Spawn (Saxon SAXON_JAR input xslt output)) (history s1)).
    { rewrite Hh. apply in_or_app. right. left. reflexivity. }
    destruct e; unfold bind, decode, print, logging_error, modify, ret, raise;
      simpl; try exact H1.
    destruct (utf8_error 0 _) as [[[? ?] ?]|]; simpl; exact H1.
Qed.

(** When the script runs to its end, every [.xml] file of a visited directory
    for which the matcher returned a stylesheet had the transform started on
    it, with that stylesheet from the stylesheet directory and with the
    file's output path as destination. *)
Theorem matched_file_is_transformed (w : world) (root_dir xslt_dir : Path)
    (schema_path : option Path) (modified_folder_name : string)
    (script_dir : Path) (st' : state) (current_path : Path)
    (file matched : string) :
  main w root_dir xslt_dir schema_path modified_folder_name script_dir initial_state
  = (st', Ok tt) ->
  WalkerSpec.visited w root_dir modified_folder_name current_path file ->
  endswith (lower file) ".xml" = true ->
  find_matching_xslt file (WalkerSpec.xslt_files_of w xslt_dir) = Some matched ->
  exists output,
    WalkerSpec.output_of root_dir modified_folder_name
      (joinpath current_path file) output
    /\ In (Spawn (Saxon SAXON_JAR (joinpath current_path file)
                    (joinpath xslt_dir matched) output))
         (history st').
Proof.
  intros Hrun Hv Hxml Hm.
  set (P := WalkerSpec.transform_of_visited w root_dir xslt_dir modified_folder_name).
  set (Q := WalkerSpec.unmatched_of_visited w root_dir modified_folder_name).
  assert (Hne : is_empty matched = false).
  { pose proof (MatcherSpec.guarded_loop_selects (prefix_clean file)
                  (WalkerSpec.xslt_files_of w xslt_dir)) as Hs.
    unfold find_matching_xslt in Hm. rewrite Hm in Hs.
    apply MatcherFacts.selected_in_list in Hs.
    unfold WalkerSpec.xslt_files_of in Hs.
    destruct (os_listdir w xslt_dir) as [listing|msg]; [|destruct Hs].
    eapply MatcherFacts.loaded_names_nonempty, Hs. }
  pose proof (WalkerSpec.ok_main w root_dir xslt_dir modified_folder_name
                schema_path script_dir) as Hmain.
  unfold main, bind in Hrun, Hmain.
  pose proof (fun s => WalkerSpec.ok_write_validation_report w root_dir xslt_dir
                         modified_folder_name script_dir s) as Hval.
  pose proof (fun s => WalkerSpec.ok_write_unmatched_report w root_dir xslt_dir
                         modified_folder_name script_dir s) as Hunm.
  destruct (traverse_and_process w root_dir xslt_dir modified_folder_name
              schema_path initial_state) as [s1 [[]|e1]] eqn:Et; [|discriminate].
  destruct (write_validation_report_to_txt w script_dir s1)
    as [s2 [[]|e2]] eqn:Ev; [|discriminate].
  specialize (Hval s1). rewrite Ev in Hval.
  specialize (Hunm s2). rewrite Hrun in Hunm. simpl in Hval, Hunm.
  unfold traverse_and_process in Et.
  destruct (os_listdir w xslt_dir) as [listing|msg] eqn:El; [|discriminate].
  assert (Hx : load_xslt_files listing = WalkerSpec.xslt_files_of w xslt_dir).
  { unfold WalkerSpec.xslt_files_of. rewrite El. reflexivity. }
  rewrite Hx in Et.
  destruct Hv as [Hp (subdirs & files & Hin & Hf)].
  destruct (for_each_visit (extends P Q) (extends_refl P Q) (extends_trans P Q)
              _ _ _ _ _
              (WalkerSpec.ok_visit_dir w root_dir xslt_dir modified_folder_name
                 schema_path)
              Et Hin) as (sa & sb & _ & Hdir & Hb).
  simpl in Hdir. rewrite Hp in Hdir.
  assert (Hfiles : forall f, In f files ->
            respects (extends P Q)
              (visit_file w root_dir xslt_dir modified_folder_name schema_path
                 (WalkerSpec.xslt_files_of w xslt_dir) current_path f)).
  { intros f Hfin. apply WalkerSpec.ok_visit_file. split; [exact Hp|].
    exists subdirs, files. auto. }
  destruct (for_each_visit (extends P Q) (extends_refl P Q) (extends_trans P Q)
              _ _ _ _ _ Hfiles Hdir Hf) as (sc & sd & _ & Hfile & Hd).
  unfold visit_file in Hfile. rewrite Hxml, Hm in Hfile. simpl in Hfile.
  rewrite Hne in Hfile. simpl in Hfile. unfold bind in Hfile.
  destruct (ensure_output_path w (joinpath current_path file) root_dir
              modified_folder_name sc) as [s3 [output|e3]] eqn:Ee; [|discriminate].
  exists output. split.
  { eapply WalkerSpec.ensure_output_path_value. exact Ee. }
  pose proof (process_file_starts_transform w (joinpath current_path file) output
                (joinpath xslt_dir matched) schema_path s3) as Hp3.
  destruct (process_file w (joinpath current_path file) output
              (joinpath xslt_dir matched) schema_path s3) as [s4 [success|e4]];
    [|discriminate].
  simpl in Hp3.
  assert (H4 : history sd = history s4).
  { destruct (negb success); unfold print, modify, ret in Hfile;
      injection Hfile as <-; reflexivity. }
  assert (Hin' : forall a s s', extends P Q s s' -> In a (history s) -> In a (history s')).
  { intros a s s' [(hs & -> & _) _] H. apply in_or_app. left. exact H. }
  eapply Hin'; [exact Hunm|]. eapply Hin'; [exact Hval|].
  eapply Hin'; [exact Hb|]. eapply Hin'; [exact Hd|].
  rewrite H4. exact Hp3.
Qed.

(** [OrderStatus1.xml] in the input root, [OrderStatus.xslt] among the
    stylesheets, every tool exiting with code zero. *)
Definition smooth_world : world :=
  {| spawn := fun _ _ => Exited 1 0 EmptyString EmptyString;
     syscall := fun _ _ => None;
     os_listdir := fun _ => inl ["readme.txt"; "OrderStatus.xslt"];
     os_walk := fun _ =>
       [(["/"; "data"; "in"], ["A"], ["notes.txt"]);
        (["/"; "data"; "in"; "A"], [], ["OrderStatus1.xml"])] |}.

Lemma matched_file_is_transformed_witness :
  exists output,
    In (Spawn (Saxon SAXON_JAR ["/"; "data"; "in"; "A"; "OrderStatus1.xml"]
                 ["/"; "data"; "xslt"; "OrderStatus.xslt"] output))
      (history (fst (main smooth_world ["/"; "data"; "in"] ["/"; "data"; "xslt"]
                       None "Modified" ["/"; "app"] initial_state))).
Proof.
  set (r := main smooth_world ["/"; "data"; "in"] ["/"; "data"; "xslt"] None
              "Modified" ["/"; "app"] initial_state).
  assert (E : r = (fst r, Ok tt)) by (vm_compute; reflexivity).
  destruct (matched_file_is_transformed smooth_world ["/"; "data"; "in"]
              ["/"; "data"; "xslt"] None "Modified" ["/"; "app"] (fst r)
              ["/"; "data"; "in"; "A"] "OrderStatus1.xml" "OrderStatus.xslt" E)
    as (output & _ & H).
  - split; [reflexivity|]. exists [], ["OrderStatus1.xml"]. split; simpl; auto.
  - reflexivity.
  - reflexivity.
  - exists output. exact H.
Defined.

End TransformFacts.

(** ** When a run ends normally *)

Module Completion.

Import Py Pathlib Runtime RunLogic XSLTTransform.
Local Open Scope py_scope.

(** [c] raises nothing but exceptions in [E]. *)
Definition raises_only (E : exn -> Prop) {A} (c : M A) : Prop :=
  forall st, match snd (c st) with Ok _ => True | Raise e => E e end.

Definition nothing : exn -> Prop := fun _ => False.
Definition exit_code_only : exn -> Prop :=
  fun e => is_CalledProcessError e = true.

Lemma ro_ret E {A} (a : A) : raises_only E (ret a).
Proof. intros st. exact I. Qed.

Lemma ro_modify E f : raises_only E (modify f).
Proof. intros st. exact I. Qed.

Lemma ro_gets E {A} (f : state -> A) : raises_only E (gets f).
Proof. intros st. exact I. Qed.

Lemma ro_bind E {A B} (c : M A) (k : A -> M B) :
  raises_only E c -> (forall a, raises_only E (k a)) -> raises_only E (bind c k).
Proof.
  intros Hc Hk st. unfold bind. specialize (Hc st).
  destruct (c st) as [st' [a|e]]; simpl in *; [apply Hk | exact Hc].
Qed.

Lemma ro_try E E' {A} (c : M A) (handler : exn -> option (M A)) :
  raises_only E c ->
  (forall e, E e ->
     match handler e with Some h => raises_only E' h | None => E' e end) ->
  raises_only E' (try_except c handler).
Proof.
  intros Hc Hh st. unfold try_except. specialize (Hc st).
  destruct (c st) as [st' [a|e]]; simpl in *; [exact I|].
  specialize (Hh e Hc). destruct (handler e) as [h|]; [apply Hh | exact Hh].
Qed.

Lemma ro_for_each E {A} (xs : list A) (body : A -> M unit) :
  (forall x, In x xs -> raises_only E (body x)) -> raises_only E (for_each xs body).
Proof.
  induction xs as [|x xs IH]; intros H; simpl; [apply ro_ret|].
  apply ro_bind; [apply H; left; reflexivity|].
  intros _. apply IH. intros y Hy. apply H. right. exact Hy.
Qed.

Lemma ro_returns {A} (c : M A) st :
  raises_only nothing c -> exists a, snd (c st) = Ok a.
Proof.
  intros H. specialize (H st). destruct (snd (c st)) as [a|e]; [eauto | destruct H].
Qed.

(** A failed command whose captured error stream is well-formed UTF-8. *)
Definition readable_failure : exn -> Prop :=
  fun e =>
    match e with
    | CalledProcessError _ _ err => utf8_error 0 err = None
    | _ => False
    end.

Lemma ro_decode E b : utf8_error 0 b = None -> raises_only E (decode b).
Proof. intros H st. unfold decode. rewrite H. exact I. Qed.

(** What the environment has to grant for a run to reach its end. *)
Record cooperative (w : world) (root_dir xslt_dir : Path) : Prop := {
  log_opens : forall h p, syscall w h (OpenLog p) = None;
  listing_ok : exists listing, os_listdir w xslt_dir = inl listing;
  walk_below_root :
    forall current_path subdirs files,
      In (current_path, subdirs, files) (os_walk w root_dir) ->
      relative_to current_path root_dir <> None;
  names_relative :
    forall current_path subdirs files file,
      In (current_path, subdirs, files) (os_walk w root_dir) ->
      In file files -> root_of file = None;
  mkdir_ok : forall h p, syscall w h (Mkdir p) = None;
  write_ok : forall h p content, syscall w h (WriteText p content) = None;
  transform_ends :
    forall h jar s x o,
      exists elapsed rc out err,
        spawn w h (Saxon jar s x o) = Exited elapsed rc out err
        /\ (elapsed <= 30)%nat
        /\ (rc = 0%Z \/ utf8_error 0 err = None);
  format_reports : forall f t, PipelineSpec.reports_cleanly w (XmllintFormat f t);
  move_reports : forall s d, PipelineSpec.reports_cleanly w (Mv s d)
}.

Section Cooperative.

Variable w : world.
Variables root_dir xslt_dir : Path.
Hypothesis coop : cooperative w root_dir xslt_dir.

Lemma ro_checked_run c :
  PipelineSpec.reports_cleanly w c ->
  raises_only readable_failure (subprocess_run w c true None).
Proof.
  intros Hs st. unfold subprocess_run, bind, gets, record_action, modify; simpl.
  specialize (Hs (history st)).
  destruct (spawn w (history st) c) as [msg | elapsed rc out err]; simpl.
  - destruct Hs.
  - destruct (rc =? 0)%Z eqn:Erc; simpl; [exact I|].
    destruct Hs as [Hz | Hd]; [|exact Hd].
    subst rc. discriminate Erc.
Qed.

Lemma ro_transform s x o :
  raises_only readable_failure
    (subprocess_run w (Saxon SAXON_JAR s x o) true (Some 30%nat)).
Proof.
  intros st. unfold subprocess_run, bind, gets, record_action, modify; simpl.
  destruct (transform_ends _ _ _ coop (history st) SAXON_JAR s x o)
    as (elapsed & rc & out & err & E & Ht & Hs).
  rewrite E. simpl.
  assert (Hlt : (30 <? elapsed)%nat = false) by (apply Nat.ltb_ge; exact Ht).
  rewrite Hlt. simpl.
  destruct (rc =? 0)%Z eqn:Erc; simpl; [exact I|].
  destruct Hs as [Hz | Hd]; [|exact Hd].
  subst rc. discriminate Erc.
Qed.

Lemma ro_format file_path : raises_only nothing (format_with_xmllint w file_path).
Proof.
  unfold format_with_xmllint. apply (ro_try readable_failure).
  - apply ro_bind; [apply ro_checked_run, (format_reports _ _ _ coop)|].
    intros _. apply ro_bind; [|intros _; apply ro_modify].
    apply ro_checked_run, (move_reports _ _ _ coop).
  - intros e He. destruct e; try (exfalso; exact He). simpl in He.
    apply ro_bind; [apply ro_decode, He | intros shown].
    apply ro_bind; [apply ro_modify | intros _].
    apply ro_bind; [apply ro_decode, He | intros logged; apply ro_modify].
Qed.

Lemma ro_validate file_path schema :
  raises_only nothing (validate_xml_schema w file_path schema).
Proof.
  intros st. rewrite PipelineSpec.validate_returns. exact I.
Qed.

Lemma ro_process_file input output xslt schema :
  raises_only nothing (process_file w input output xslt schema).
Proof.
  unfold process_file. apply (ro_try readable_failure).
  - apply ro_bind; [apply ro_transform | intros _].
    apply ro_bind; [apply ro_modify | intros _].
    apply ro_bind.
    { intros st. pose proof (ro_format output st) as H.
      destruct (snd (format_with_xmllint w output st)); [exact I | destruct H]. }
    intros _. apply ro_bind; [|intros _; apply ro_ret].
    destruct schema as [s|]; [|apply ro_ret].
    intros st. pose proof (ro_validate output s st) as H.
    destruct (snd (validate_xml_schema w output s st)); [exact I | destruct H].
  - intros e He. destruct e; try (exfalso; exact He). simpl in He.
    apply ro_bind; [apply ro_decode, He | intros decoded].
    apply ro_bind; [apply ro_modify | intros _].
    apply ro_bind; [apply ro_modify | intros _; apply ro_ret].
Qed.

Lemma relative_to_longer p root rel q :
  relative_to p root = Some rel ->
  relative_to (p ++ q)%list root = Some (rel ++ q)%list.
Proof.
  revert p. induction root as [|r root IH]; intros p H; simpl in *.
  - injection H as ->. reflexivity.
  - destruct p as [|a p]; [discriminate|]. simpl.
    destruct (String.eqb r a); [apply IH, H | discriminate].
Qed.

Lemma ro_sys_ok op :
  (forall h, syscall w h op = None) -> raises_only nothing (sys w op).
Proof.
  intros H st. unfold sys, bind, gets, record_action, modify; simpl.
  rewrite H. exact I.
Qed.

Lemma ro_sys_any op : raises_only (fun _ => True) (sys w op).
Proof.
  intros st. unfold sys, bind, gets, record_action, modify; simpl.
  destruct (syscall w (history st) op); exact I.
Qed.

Lemma ro_ensure_output_path current_path file modified_folder_name :
  relative_to current_path root_dir <> None ->
  root_of file = None ->
  raises_only nothing
    (ensure_output_path w (joinpath current_path file) root_dir
       modified_folder_name).
Proof.
  intros Hrel Hfile. unfold ensure_output_path.
  destruct (relative_to current_path root_dir) as [rel|] eqn:Er; [|contradiction].
  unfold joinpath at 1. rewrite Hfile.
  rewrite (relative_to_longer _ _ _ (components file) Er).
  apply ro_bind; [apply ro_sys_ok; intros h; apply (mkdir_ok _ _ _ coop) | intros _].
  apply ro_bind; [|intros _; apply ro_ret].
  apply (ro_try (fun _ => True)); [apply ro_sys_any|].
  intros e _. apply ro_modify.
Qed.

Lemma ro_visit_file modified_folder_name schema_path xslt_files current_path file :
  relative_to current_path root_dir <> None ->
  root_of file = None ->
  raises_only nothing
    (visit_file w root_dir xslt_dir modified_folder_name schema_path xslt_files
       current_path file).
Proof.
  intros Hrel Hfile. unfold visit_file.
  destruct (endswith (lower file) ".xml"); [|apply ro_ret].
  destruct (negb (truthy (find_matching_xslt file xslt_files))).
  - apply ro_bind; [apply ro_modify | intros _].
    apply ro_bind; [apply ro_modify | intros _; apply ro_modify].
  - apply ro_bind; [apply ro_ensure_output_path; assumption | intros output].
    apply ro_bind; [apply ro_process_file | intros success].
    destruct (negb success); [apply ro_modify | apply ro_ret].
Qed.

Lemma ro_traverse modified_folder_name schema_path :
  raises_only nothing
    (traverse_and_process w root_dir xslt_dir modified_folder_name schema_path).
Proof.
  unfold traverse_and_process.
  destruct (listing_ok _ _ _ coop) as [listing ->].
  apply ro_for_each. intros [[current_path subdirs] files] Hin. simpl.
  destruct (in_parts modified_folder_name current_path); [apply ro_ret|].
  apply ro_for_each. intros file Hf. apply ro_visit_file.
  - eapply (walk_below_root _ _ _ coop). exact Hin.
  - eapply (names_relative _ _ _ coop); eassumption.
Qed.

Lemma ro_write_text p content : raises_only nothing (write_text w p content).
Proof.
  unfold write_text. apply ro_bind; [|intros _; apply ro_modify].
  apply ro_sys_ok. intros h. apply (write_ok _ _ _ coop).
Qed.

Lemma ro_main schema_path modified_folder_name script_dir :
  raises_only nothing
    (main w root_dir xslt_dir schema_path modified_folder_name script_dir).
Proof.
  unfold main. apply ro_bind; [apply ro_traverse | intros _].
  apply ro_bind; [|intros _].
  - unfold write_validation_report_to_txt.
    apply ro_bind; [apply ro_gets | intros errors].
    destruct errors; [apply ro_modify|].
    apply ro_bind; [apply ro_write_text | intros _; apply ro_modify].
  - unfold write_unmatched_files_report.
    apply ro_bind; [apply ro_gets | intros files].
    destruct files; [apply ro_modify|].
    apply ro_bind; [apply ro_write_text | intros _; apply ro_modify].
Qed.

Lemma ro_script schema_path modified_folder_name script_dir :
  raises_only nothing
    (script w root_dir xslt_dir schema_path modified_folder_name script_dir).
Proof.
  unfold script, setup_logging. apply ro_bind; [|intros _; apply ro_main].
  apply ro_sys_ok. intros h. apply (log_opens _ _ _ coop).
Qed.

End Cooperative.


(** Every transform fails with exit code 1, [chmod] is refused and xmllint
    finds every output invalid. *)
Definition hostile_world : world :=
  {| spawn := fun _ c =>
       match c with
       | Saxon _ _ _ _ => Exited 30 1 EmptyString "XTSE0010"
       | _ => Exited 0 4 EmptyString "failed"
       end;
     syscall := fun _ op =>
       match op with
       | Chmod _ _ => Some "[Errno 1] Operation not permitted"
       | _ => None
       end;
     os_listdir := fun _ => inl ["OrderStatus.xslt"];
     os_walk := fun _ => PipelineSpec.two_orders |}.

Lemma hostile_world_cooperative :
  cooperative hostile_world ["/"; "data"; "in"] ["/"; "data"; "xslt"].
Proof.
  constructor; simpl.
  - reflexivity.
  - eexists. reflexivity.
  - intros current_path subdirs files [H|[]]. injection H as <- _ _. discriminate.
  - intros current_path subdirs files file [H|[]] Hf. injection H as _ _ <-.
    destruct Hf as [<-|[<-|[]]]; reflexivity.
  - reflexivity.
  - reflexivity.
  - intros h jar s x o. do 4 eexists.
    split; [reflexivity | split; [lia | right; reflexivity]].
  - intros f t h. right. reflexivity.
  - intros s d h. right. reflexivity.
Defined.


End Completion.

(** ** What the walker looks at, and runs without a schema *)

Module WalkerFacts.

Import Py Pathlib Runtime RunLogic.
Local Open Scope py_scope.

Lemma for_each_map {A} (g : A -> A) (xs : list A) (body : A -> M unit) st :
  (forall x s, body x s = body (g x) s) ->
  for_each xs body st = for_each (List.map g xs) body st.
Proof.
  intros H. revert st. induction xs as [|x xs IH]; intros st; simpl; [reflexivity|].
  unfold bind. rewrite <- H.
  destruct (body x st) as [s [[]|e]]; [apply IH | reflexivity].
Qed.

Definition is_xml (file : string) : bool := endswith (lower file) ".xml".

(** A yielded triple without its list of subdirectories and without the
    files that are not [.xml] files. *)
Definition xml_only (entry : Path * list string * list string)
  : Path * list string * list string :=
  let '(current_path, subdirs, files) := entry in
  (current_path, [], List.filter is_xml files).

Definition only_xml (w : world) : world :=
  {| spawn := spawn w;
     syscall := syscall w;
     os_listdir := os_listdir w;
     os_walk := fun root => List.map xml_only (os_walk w root) |}.

(** In both scripts the walker acts on the files whose lower-cased name ends
    in [.xml] and on nothing else: other files, and the subdirectory lists
    [os.walk] hands over, have no effect on the run. *)
Theorem walker_ignores_other_files (w : world) (root_dir xslt_dir : Path)
    (modified_folder_name : string) (schema_path : option Path) (st : state) :
  XSLTTransform.traverse_and_process w root_dir xslt_dir modified_folder_name
    schema_path st
  = XSLTTransform.traverse_and_process (only_xml w) root_dir xslt_dir
      modified_folder_name schema_path st
  /\ Scraper.traverse_and_process w root_dir xslt_dir modified_folder_name st
     = Scraper.traverse_and_process (only_xml w) root_dir xslt_dir
         modified_folder_name st.
Proof.
  split.
  - unfold XSLTTransform.traverse_and_process. simpl.
    destruct (os_listdir w xslt_dir) as [listing|msg]; [|reflexivity].
    change (XSLTTransform.visit_dir (only_xml w)) with (XSLTTransform.visit_dir w).
    apply for_each_map.
    intros [[current_path subdirs] files] s. simpl.
    destruct (XSLTTransform.in_parts modified_folder_name current_path);
      [reflexivity|].
    apply for_each_filter. intros file s' Hf.
    unfold XSLTTransform.visit_file. unfold is_xml in Hf. rewrite Hf. reflexivity.
  - unfold Scraper.traverse_and_process. simpl.
    destruct (os_listdir w xslt_dir) as [listing|msg]; [|reflexivity].
    change (Scraper.visit_dir (only_xml w)) with (Scraper.visit_dir w).
    apply for_each_map.
    intros [[current_path subdirs] files] s. simpl.
    destruct (Scraper.in_parts modified_folder_name current_path);
      [reflexivity|].
    apply for_each_filter. intros file s' Hf.
    unfold Scraper.visit_file. unfold is_xml in Hf. rewrite Hf. reflexivity.
Qed.

Import XSLTTransform.

Section NoSchema.

Variable w : world.
Variable script_dir : Path.

Definition validation_report_path : Path :=
  joinpath script_dir "validation_report.txt".

(** The error map is as it was, and if it was empty no validation report has
    been written since. *)
Definition quiet (st st' : state) : Prop :=
  validation_errors st' = validation_errors st
  /\ (validation_errors st = [] ->
      forall content,
        In (validation_report_path, content) (written st') ->
        In (validation_report_path, content) (written st)).

Lemma quiet_refl st : quiet st st.
Proof. split; auto. Qed.

Lemma quiet_trans a b c : quiet a b -> quiet b c -> quiet a c.
Proof.
  intros [E1 W1] [E2 W2]. split; [congruence|].
  intros Ha content Hin. apply W1; [exact Ha|].
  apply W2; [congruence | exact Hin].
Qed.

Lemma quiet_same st st' :
  validation_errors st' = validation_errors st -> written st' = written st ->
  quiet st st'.
Proof. intros E W. split; [exact E|]. rewrite W. auto. Qed.

Local Abbreviation q := (respects quiet).

Lemma q_ret {A} (a : A) : q (ret a).
Proof. apply respects_ret, quiet_refl. Qed.

Lemma q_raise {A} (e : exn) : q (@raise A e).
Proof. apply respects_raise, quiet_refl. Qed.

Lemma q_bind {A B} (c : M A) (k : A -> M B) :
  q c -> (forall a, q (k a)) -> q (bind c k).
Proof. apply respects_bind, quiet_trans. Qed.

Lemma q_try {A} (c : M A) (handler : exn -> option (M A)) :
  q c -> (forall e h, handler e = Some h -> q h) -> q (try_except c handler).
Proof. apply respects_try_except, quiet_trans. Qed.

Lemma q_for_each {A} (xs : list A) (body : A -> M unit) :
  (forall x, In x xs -> q (body x)) -> q (for_each xs body).
Proof. apply respects_for_each; [apply quiet_refl | apply quiet_trans]. Qed.

Lemma q_print msg : q (print msg).
Proof. intros st. apply quiet_same; reflexivity. Qed.

Lemma q_logging_error msg : q (logging_error msg).
Proof. intros st. apply quiet_same; reflexivity. Qed.

Lemma q_decode b : q (decode b).
Proof.
  unfold decode. destruct (utf8_error 0 b) as [[[? ?] ?]|]; [apply q_raise | apply q_ret].
Qed.

Lemma q_append_unmatched u : q (append_unmatched u).
Proof. intros st. apply quiet_same; reflexivity. Qed.

Lemma q_subprocess_run c check timeout : q (subprocess_run w c check timeout).
Proof.
  intros st. unfold subprocess_run, bind, gets, record_action, modify; simpl.
  destruct (spawn w (history st) c) as [msg | elapsed rc out err]; simpl;
    [apply quiet_same; reflexivity|].
  destruct timeout as [t|]; simpl.
  - destruct (t <? elapsed)%nat; simpl; [apply quiet_same; reflexivity|].
    destruct (check && negb (rc =? 0)%Z); apply quiet_same; reflexivity.
  - destruct (check && negb (rc =? 0)%Z); apply quiet_same; reflexivity.
Qed.

Lemma q_sys op : q (sys w op).
Proof.
  intros st. unfold sys, bind, gets, record_action, modify; simpl.
  destruct (syscall w (history st) op); apply quiet_same; reflexivity.
Qed.

Lemma q_format file_path : q (format_with_xmllint w file_path).
Proof.
  unfold format_with_xmllint. apply q_try.
  - apply q_bind; [apply q_subprocess_run | intros _].
    apply q_bind; [apply q_subprocess_run | intros _; apply q_print].
  - intros e h. destruct e; intros [=<-].
    apply q_bind; [apply q_decode | intros shown].
    apply q_bind; [apply q_print | intros _].
    apply q_bind; [apply q_decode | intros logged; apply q_logging_error].
Qed.

Lemma q_process_file input output xslt : q (process_file w input output xslt None).
Proof.
  unfold process_file. apply q_try.
  - apply q_bind; [apply q_subprocess_run | intros _].
    apply q_bind; [apply q_print | intros _].
    apply q_bind; [apply q_format | intros _].
    apply q_bind; [apply q_ret | intros _; apply q_ret].
  - intros e h. destruct e; intros [=<-].
    apply q_bind; [apply q_decode | intros decoded].
    apply q_bind; [apply q_print | intros _].
    apply q_bind; [apply q_logging_error | intros _; apply q_ret].
Qed.

Lemma q_ensure_output_path input root_dir modified_folder_name :
  q (ensure_output_path w input root_dir modified_folder_name).
Proof.
  unfold ensure_output_path.
  destruct (relative_to input root_dir); [|apply q_raise].
  apply q_bind; [apply q_sys | intros _].
  apply q_bind; [|intros _; apply q_ret].
  apply q_try; [apply q_sys|]. intros e h [=<-]. apply q_print.
Qed.

Lemma q_traverse root_dir xslt_dir modified_folder_name :
  q (traverse_and_process w root_dir xslt_dir modified_folder_name None).
Proof.
  unfold traverse_and_process.
  destruct (os_listdir w xslt_dir) as [listing|msg]; [|apply q_raise].
  apply q_for_each. intros [[current_path subdirs] files] _. simpl.
  destruct (in_parts modified_folder_name current_path); [apply q_ret|].
  apply q_for_each. intros file _. unfold visit_file.
  destruct (endswith (lower file) ".xml"); [|apply q_ret].
  destruct (negb (truthy (find_matching_xslt file (load_xslt_files listing)))).
  - apply q_bind; [apply q_print | intros _].
    apply q_bind; [apply q_logging_error | intros _; apply q_append_unmatched].
  - apply q_bind; [apply q_ensure_output_path | intros output].
    apply q_bind; [apply q_process_file | intros success].
    destruct (negb success); [apply q_print | apply q_ret].
Qed.

Lemma q_write_validation_report : q (write_validation_report_to_txt w script_dir).
Proof.
  intros st. unfold write_validation_report_to_txt, bind, gets; simpl.
  destruct (validation_errors st) as [|entry errors] eqn:E.
  - apply quiet_same; reflexivity.
  - split.
    + unfold write_text, sys, bind, gets, record_action, modify, print; simpl.
      destruct (syscall w (history st) _); reflexivity.
    + rewrite E. discriminate.
Qed.

Lemma q_write_unmatched_report : q (write_unmatched_files_report w script_dir).
Proof.
  intros st. unfold write_unmatched_files_report, bind, gets; simpl.
  destruct (unmatched_files st) as [|u us].
  - apply quiet_same; reflexivity.
  - unfold write_text, sys, bind, gets, record_action, modify, print; simpl.
    destruct (syscall w (history st) _); simpl.
    + apply quiet_same; reflexivity.
    + split; [reflexivity|]. simpl. intros _ content Hin.
      apply in_app_or in Hin as [Hin|[Hin|[]]]; [exact Hin|].
      exfalso. injection Hin as Hp _.
      change (script_dir ++ ["unmatched_files_report.txt"]
              = script_dir ++ ["validation_report.txt"])%list in Hp.
      apply app_inj_tail in Hp as [_ Hp]. discriminate Hp.
Qed.

Lemma q_main root_dir xslt_dir modified_folder_name :
  q (main w root_dir xslt_dir None modified_folder_name script_dir).
Proof.
  unfold main. apply q_bind; [apply q_traverse | intros _].
  apply q_bind; [apply q_write_validation_report | intros _].
  apply q_write_unmatched_report.
Qed.

End NoSchema.

(** Without a schema a run validates nothing: the validator is never
    started, no validation error is recorded, and no validation report is
    written. *)
Theorem no_schema_no_validation (w : world) (root_dir xslt_dir : Path)
    (modified_folder_name : string) (script_dir : Path) :
  let st' :=
    fst (main w root_dir xslt_dir None modified_folder_name script_dir
           initial_state) in
  validation_errors st' = []
  /\ (forall schema file, ~ In (Spawn (XmllintSchema schema file)) (history st'))
  /\ (forall content,
        ~ In (joinpath script_dir "validation_report.txt", content) (written st')).
Proof.
  intros st'.
  destruct (q_main w script_dir root_dir xslt_dir modified_folder_name
              initial_state) as [He Hw].
  split; [exact He|]. split.
  - intros schema file Hin.
    destruct (RunAudit.audit_main w root_dir xslt_dir modified_folder_name None
                script_dir initial_state) as [[(hs & Eh & Fh) _] _].
    fold st' in Eh. rewrite Eh in Hin. simpl in Hin.
    rewrite Forall_forall in Fh. apply Fh in Hin.
    destruct Hin as [Hs _]. discriminate Hs.
  - intros content Hin. apply (Hw eq_refl content Hin).
Qed.

End WalkerFacts.

(** ** The two reports *)

Module ReportFacts.

Import Py Pathlib Runtime XSLTTransform.
Local Open Scope py_scope.

Lemma append_assoc (a b c : string) : ((a ++ b) ++ c = a ++ (b ++ c))%string.
Proof. induction a as [|x a IH]; simpl; [reflexivity | f_equal; exact IH]. Qed.

Lemma length_repeat_str s n :
  String.length (repeat_str s n) = (n * String.length s)%nat.
Proof.
  induction n as [|n IH]; simpl; [reflexivity|].
  rewrite MatcherFacts.length_app, IH. reflexivity.
Qed.

Lemma length_ljust s width :
  String.length (ljust s width) = Nat.max width (String.length s).
Proof.
  unfold ljust. rewrite MatcherFacts.length_app, length_repeat_str. simpl. lia.
Qed.

Lemma max_len_ge s xs : In s xs -> (String.length s <= max_len xs)%nat.
Proof.
  induction xs as [|x xs IH]; intros H; [destruct H|].
  simpl. destruct H as [->|H]; [lia|]. specialize (IH H). lia.
Qed.

Lemma str_in_ljust s width rest : str_in s (ljust s width ++ rest) = true.
Proof.
  unfold ljust. rewrite append_assoc. apply WalkerSpec.str_in_here.
Qed.

(** One row of the table, for the column widths [wf] and [we]. *)
Definition table_row (wf we : nat) (entry : string * string) : string :=
  "| " ++ ljust (fst entry) wf ++ " | " ++ ljust (snd entry) we ++ " |".

Lemma table_row_length wf we entry :
  (String.length (fst entry) <= wf)%nat ->
  (String.length (snd entry) <= we)%nat ->
  String.length (table_row wf we entry) = (wf + we + 7)%nat.
Proof.
  intros Hf He. unfold table_row.
  repeat (rewrite MatcherFacts.length_app || rewrite length_ljust). simpl. lia.
Qed.

(** The validation report is a table: a title, a separator, a header, a
    separator, one row per recorded error in the order of recording, and a
    separator.  Every row is exactly as wide as the separator and shows the
    file path and the message of its entry; the header is as wide only when
    the longest path has at least 9 characters and the longest message at
    least 5. *)
Theorem validation_table_is_aligned (errors : list (string * string)) :
  let wf := max_len (List.map fst errors) in
  let we := max_len (List.map snd errors) in
  exists separator header rows,
    validation_report errors
    = (" XML Schema Validation Error Report" ++ nl
       ++ separator ++ nl ++ header ++ nl ++ separator ++ nl
       ++ String.concat EmptyString (List.map (fun row => row ++ nl) rows)
       ++ separator ++ nl)%string
    /\ String.length separator = (wf + we + 7)%nat
    /\ String.length header = (Nat.max wf 9 + Nat.max we 5 + 7)%nat
    /\ Forall2
         (fun row entry =>
            String.length row = String.length separator
            /\ str_in (fst entry) row = true
            /\ str_in (snd entry) row = true)
         rows errors.
Proof.
  intros wf we.
  exists ("+" ++ repeat_str "-" (wf + 2) ++ "+" ++ repeat_str "-" (we + 2) ++ "+")%string,
    ("| " ++ ljust "File Path" wf ++ " | " ++ ljust "Error" we ++ " |")%string,
    (List.map (table_row wf we) errors).
  assert (Hsep : String.length
                   ("+" ++ repeat_str "-" (wf + 2) ++ "+"
                    ++ repeat_str "-" (we + 2) ++ "+")%string
                 = (wf + we + 7)%nat).
  { repeat (rewrite MatcherFacts.length_app || rewrite length_repeat_str).
    simpl. lia. }
  split; [|split; [exact Hsep|split]].
  - assert (Hrows :
      List.map (fun '(filepath, error) =>
                  ("| " ++ ljust filepath wf ++ " | " ++ ljust error we
                   ++ " |" ++ nl)%string) errors
      = List.map (fun row => (row ++ nl)%string)
          (List.map (table_row wf we) errors)).
    { rewrite map_map. apply map_ext. intros [filepath error].
      unfold table_row. cbn [fst snd]. rewrite !append_assoc. reflexivity. }
    unfold validation_report. cbv zeta. fold wf we. rewrite Hrows.
    rewrite !append_assoc. reflexivity.
  - repeat (rewrite MatcherFacts.length_app || rewrite length_ljust). simpl. lia.
  - rewrite Hsep.
    assert (Hall : forall entry, In entry errors ->
              (String.length (fst entry) <= wf)%nat
              /\ (String.length (snd entry) <= we)%nat).
    { intros entry Hin. split; apply max_len_ge, in_map, Hin. }
    clearbody wf we. clear Hsep.
    induction errors as [|entry errors IH]; simpl; constructor.
    + destruct (Hall entry (or_introl eq_refl)) as [Hf He].
      split; [apply table_row_length; assumption|].
      unfold table_row. split.
      * apply (WalkerSpec.str_in_app_r _ "| "). apply str_in_ljust.
      * apply (WalkerSpec.str_in_app_r _ "| ").
        apply WalkerSpec.str_in_app_r. apply (WalkerSpec.str_in_app_r _ " | ").
        apply str_in_ljust.
    + apply IH. intros e He. apply Hall. right. exact He.
Qed.


End ReportFacts.
